(** * video-merger-api: the POST /merge request handler of [src/index.js]

    A shallow embedding of the Express handler that downloads a video and
    an audio stream, runs ffmpeg on them and answers with the merged file
    in base64, together with the properties of its request lifecycle:
    validation, temporary files, download order, the ffmpeg invocation,
    cleanup and the shape of the answers. *)

From Stdlib Require Import Ascii String List ZArith NArith QArith Qround Qabs Lia.
From Stdlib.Strings Require Import Byte.
From stdpp Require Import base option list strings pretty gmap.

Set Warnings "-register-all".

Local Open Scope string_scope.
Local Open Scope Z_scope.

(** ** Strings as the handler uses them *)

Module JsString.

(** [s.substring(n)]: the characters of [s] from index [n] on, the empty
    string when [n] is past the end. *)
Fixpoint substring_from (n : nat) (s : string) : string :=
  match n, s with
  | O, _ => s
  | S _, EmptyString => EmptyString
  | S k, String _ rest => substring_from k rest
  end.

(** A JavaScript string is falsy exactly when it is empty. *)
Definition nonempty (s : string) : bool :=
  match s with EmptyString => false | String _ _ => true end.

(** [s.startsWith(p)] *)
Fixpoint starts_with (p s : string) : bool :=
  match p, s with
  | EmptyString, _ => true
  | String _ _, EmptyString => false
  | String a p', String b s' => Ascii.eqb a b && starts_with p' s'
  end.

Fixpoint chars (s : string) : list ascii :=
  match s with
  | EmptyString => []
  | String c rest => c :: chars rest
  end.

Fixpoint of_chars (l : list ascii) : string :=
  match l with
  | [] => EmptyString
  | c :: rest => String c (of_chars rest)
  end.

End JsString.

(** ** Buffer.toString('base64') and its inverse (RFC 4648, with padding) *)

Module Base64.

Definition alphabet : string :=
  "ABCDEFGHIJKLMNOPQRSTUVWXYZabcdefghijklmnopqrstuvwxyz0123456789+/".

Definition pad : ascii := "="%char.

(** The character of a six-bit group. *)
Definition char_of (n : N) : ascii :=
  match String.get (N.to_nat n) alphabet with
  | Some c => c
  | None => pad
  end.

Fixpoint index_from (i : N) (c : ascii) (s : string) : option N :=
  match s with
  | EmptyString => None
  | String d rest =>
      if Ascii.eqb c d then Some i else index_from (N.succ i) c rest
  end.

(** The six-bit group of a character of the alphabet. *)
Definition index_of (c : ascii) : option N := index_from 0%N c alphabet.

(** Three bytes are cut into four six-bit groups; a tail of one or two
    bytes is padded with [=]. *)
Fixpoint encode (bs : list byte) : string :=
  match bs with
  | [] => EmptyString
  | [a] =>
      let x := Byte.to_N a in
      String (char_of (x / 4)) (String (char_of ((x mod 4) * 16))
        (String pad (String pad EmptyString)))
  | [a; b] =>
      let x := Byte.to_N a in
      let y := Byte.to_N b in
      String (char_of (x / 4)) (String (char_of ((x mod 4) * 16 + y / 16))
        (String (char_of ((y mod 16) * 4)) (String pad EmptyString)))
  | a :: b :: c :: rest =>
      let x := Byte.to_N a in
      let y := Byte.to_N b in
      let z := Byte.to_N c in
      String (char_of (x / 4)) (String (char_of ((x mod 4) * 16 + y / 16))
        (String (char_of ((y mod 16) * 4 + z / 64))
          (String (char_of (z mod 64)) (encode rest))))
  end%N.

Definition byte1 (s1 s2 : N) : option byte := Byte.of_N (s1 * 4 + s2 / 16)%N.
Definition byte2 (s2 s3 : N) : option byte :=
  Byte.of_N ((s2 mod 16) * 16 + s3 / 4)%N.
Definition byte3 (s3 s4 : N) : option byte :=
  Byte.of_N ((s3 mod 4) * 64 + s4)%N.

(** Four characters give back three bytes; padding is accepted only in
    the last group. *)
Fixpoint decode (s : string) : option (list byte) :=
  match s with
  | EmptyString => Some []
  | String c1 (String c2 (String c3 (String c4 rest))) =>
      s1 ← index_of c1;
      s2 ← index_of c2;
      a ← byte1 s1 s2;
      if Ascii.eqb c3 pad then
        if Ascii.eqb c4 pad && negb (JsString.nonempty rest)
        then Some [a] else None
      else
        s3 ← index_of c3;
        b ← byte2 s2 s3;
        if Ascii.eqb c4 pad then
          if JsString.nonempty rest then None else Some [a; b]
        else
          s4 ← index_of c4;
          c ← byte3 s3 s4;
          tl ← decode rest;
          Some (a :: b :: c :: tl)
  | _ => None
  end.

End Base64.

(** ** path.join of Node's POSIX [path] module *)

Module Path.

Definition slash : ascii := "/"%char.

(** A string without a separator. *)
Definition slash_free (s : string) : Prop := ~ In slash (JsString.chars s).

(** The segments of a path between its separators. *)
Fixpoint segments (s : string) : list string :=
  match s with
  | EmptyString => [EmptyString]
  | String c rest =>
      if Ascii.eqb c slash then EmptyString :: segments rest
      else match segments rest with
           | [] => [String c EmptyString]
           | seg :: segs => String c seg :: segs
           end
  end.

(** normalizeString: empty and [.] segments are dropped, [..] removes the
    segment before it, or is kept when nothing is left to remove and the
    path may climb above its root. [acc] is the result so far, reversed. *)
Fixpoint resolve (allowAboveRoot : bool) (acc segs : list string)
  : list string :=
  match segs with
  | [] => rev acc
  | seg :: rest =>
      if String.eqb seg EmptyString || String.eqb seg "." then
        resolve allowAboveRoot acc rest
      else if String.eqb seg ".." then
        match acc with
        | prev :: acc' =>
            if String.eqb prev ".."
            then resolve allowAboveRoot (seg :: acc) rest
            else resolve allowAboveRoot acc' rest
        | [] =>
            if allowAboveRoot
            then resolve allowAboveRoot [seg] rest
            else resolve allowAboveRoot [] rest
        end
      else resolve allowAboveRoot (seg :: acc) rest
  end.

Fixpoint join_with_slash (segs : list string) : string :=
  match segs with
  | [] => EmptyString
  | [seg] => seg
  | seg :: rest => seg ++ "/" ++ join_with_slash rest
  end.

Fixpoint last_char (s : string) : option ascii :=
  match s with
  | EmptyString => None
  | String c EmptyString => Some c
  | String _ rest => last_char rest
  end.

Definition first_is_slash (s : string) : bool :=
  match s with String c _ => Ascii.eqb c slash | EmptyString => false end.

Definition last_is_slash (s : string) : bool :=
  match last_char s with Some c => Ascii.eqb c slash | None => false end.

(** path.posix.normalize *)
Definition normalize (path : string) : string :=
  if negb (JsString.nonempty path) then "."
  else
    let isAbsolute := first_is_slash path in
    let trailingSeparator := last_is_slash path in
    let p := join_with_slash (resolve (negb isAbsolute) [] (segments path)) in
    if negb (JsString.nonempty p) then
      if isAbsolute then "/"
      else if trailingSeparator then "./" else "."
    else
      let p := if trailingSeparator then p ++ "/" else p in
      if isAbsolute then "/" ++ p else p.

(** path.posix.join: the non-empty arguments, separated by [/], then
    normalized; [.] when there is none. *)
Definition join (args : list string) : string :=
  match List.filter JsString.nonempty args with
  | [] => "."
  | a :: rest => normalize (fold_left (fun joined arg => joined ++ "/" ++ arg) rest a)
  end.

End Path.

(** ** JavaScript values *)

(** An error object, as far as the handler looks at it. *)
Record Error := mkError { message : string; stack : string }.

(** The values that travel through the handler: request fields, logged
    arguments and the JSON of an answer. A number is the rational it
    denotes; an object keeps its keys in order. *)
Inductive value :=
| VUndefined
| VNull
| VBool (b : bool)
| VNum (q : Q)
| VStr (s : string)
| VArr (items : list value)
| VObj (fields : list (string * value))
| VErr (e : Error).

(** ToBoolean *)
Definition truthy (v : value) : bool :=
  match v with
  | VUndefined | VNull => false
  | VBool b => b
  | VNum q => negb (Qeq_bool q 0)
  | VStr s => JsString.nonempty s
  | VArr _ | VObj _ | VErr _ => true
  end.

Definition num_of_Z (z : Z) : Q := inject_Z z.

(** The parsed JSON body of a request; a key that is absent reads as
    [undefined]. *)
Record Request := mkRequest { body : gmap string value }.

Definition field (req : Request) (key : string) : value :=
  match body req !! key with
  | Some v => v
  | None => VUndefined
  end.

(** What [res.status(..).json(..)] sends. *)
Record Response := mkResponse { status : Z; json : value }.

(** ** The collaborators: axios, fs, fluent-ffmpeg, console *)

Record AxiosConfig := mkAxiosConfig {
  responseType : string;
  timeout : Z;
  maxContentLength : Z
}.

Record FfmpegCommand := mkFfmpegCommand {
  inputs : list string;
  outputOptions : list string;
  output : string
}.

(** How a write stream fed by [pipe] settles: it emits [finish], or
    [error], or neither. [pipe] hands on the data and the end of the
    response stream only: when the response stream itself breaks off (the
    connection is cut, the timeout or the size ceiling strikes in the middle
    of the body), the writer is neither ended nor failed, which is the
    third case. On failure [written] is what is left at the path, if the
    file was created at all. *)
Inductive PipeOutcome :=
| PipeFinish
| PipeError (e : Error) (written : option (list byte))
| PipePending (written : option (list byte)).

(** How an ffmpeg run settles: [end], [error] with the error's message and
    the captured stderr, or neither. [written] is what the run left at the
    output path, if anything. *)
Inductive FfmpegResult :=
| FfmpegEnd (written : option (list byte))
| FfmpegError (msg stderr : string) (written : option (list byte))
| FfmpegPending.

(** One ffmpeg run as the handler observes it: the command line passed to
    the [start] listener, the [percent] of each [progress] event, and how
    the run ends. *)
Record FfmpegRun := mkFfmpegRun {
  started : option string;
  progress : list (option Q);
  result : FfmpegResult
}.

(** Everything the handler takes from outside itself. *)
Record Env := mkEnv {
  (** the k-th reading of [Date.now()] *)
  env_now : nat -> Z;
  (** the base-36 digits after the point of [Math.random()] *)
  env_random : list nat;
  (** [axios.get]: rejects with an error or resolves with a stream, given
      here by the bytes it will deliver *)
  env_axios_get : value -> AxiosConfig -> Error + list byte;
  env_pipe : string -> list byte -> PipeOutcome;
  env_ffmpeg : FfmpegCommand -> gmap string (list byte) -> FfmpegRun;
  (** [fs.unlinkSync] and [fs.readFileSync] on an existing path: the error
      thrown, if any *)
  env_unlink : string -> option Error;
  env_readFile : string -> option Error;
  (** the stack text of an error created with this message *)
  env_stack : string -> string;
  (** number built-ins: binary64 division, [toFixed], [parseFloat] *)
  env_div : Q -> Q -> Q;
  env_toFixed : nat -> Q -> string;
  env_parseFloat : string -> Q
}.

(** What the handler does to the outside, in order; an existence check
    and a read carry their answer. *)
Inductive Event :=
| EvLog (args : list value)
| EvError (args : list value)
| EvAxiosGet (url : value) (config : AxiosConfig)
| EvCreateWriteStream (path : string)
| EvWriterFinish (path : string)
| EvWriterError (path : string)
| EvStat (path : string)
| EvExists (path : string) (found : bool)
| EvReadFile (path : string) (content : option (list byte))
| EvUnlink (path : string)
| EvFfmpegRun (cmd : FfmpegCommand)
| EvFfmpegEnd
| EvFfmpegError
| EvSend (r : Response).

(** The state a request runs in: the files on disk, the events so far,
    the number of clock readings, the handler's three [let] variables
    ([None] is [undefined]) and the [res] object. *)
Record State := mkState {
  disk : gmap string (list byte);
  trace : list Event;
  ticks : nat;
  videoPath : option string;
  audioPath : option string;
  outputPath : option string;
  statusCode : Z;
  sent : option Response
}.

Definition initial (files : gmap string (list byte)) : State :=
  mkState files [] 0 None None None 200 None.

Definition set_disk (d : gmap string (list byte)) (st : State) : State :=
  mkState d (trace st) (ticks st) (videoPath st) (audioPath st)
    (outputPath st) (statusCode st) (sent st).

Definition emit (e : Event) (st : State) : State :=
  mkState (disk st) (trace st ++ [e]) (ticks st) (videoPath st) (audioPath st)
    (outputPath st) (statusCode st) (sent st).

Definition tick (st : State) : State :=
  mkState (disk st) (trace st) (S (ticks st)) (videoPath st) (audioPath st)
    (outputPath st) (statusCode st) (sent st).

Definition set_videoPath (p : string) (st : State) : State :=
  mkState (disk st) (trace st) (ticks st) (Some p) (audioPath st)
    (outputPath st) (statusCode st) (sent st).

Definition set_audioPath (p : string) (st : State) : State :=
  mkState (disk st) (trace st) (ticks st) (videoPath st) (Some p)
    (outputPath st) (statusCode st) (sent st).

Definition set_outputPath (p : string) (st : State) : State :=
  mkState (disk st) (trace st) (ticks st) (videoPath st) (audioPath st)
    (Some p) (statusCode st) (sent st).

Definition set_statusCode (c : Z) (st : State) : State :=
  mkState (disk st) (trace st) (ticks st) (videoPath st) (audioPath st)
    (outputPath st) c (sent st).

Definition set_sent (r : Response) (st : State) : State :=
  mkState (disk st) (trace st) (ticks st) (videoPath st) (audioPath st)
    (outputPath st) (statusCode st) (Some r).

(** Writing to a path that could not be opened leaves the disk as it is. *)
Definition leave (p : string) (written : option (list byte))
    (d : gmap string (list byte)) : gmap string (list byte) :=
  match written with
  | Some bytes => <[p := bytes]> d
  | None => d
  end.

(** ** Computations that may throw or never settle *)

Inductive Outcome (A : Type) :=
| Ret (a : A)
| Throw (e : Error)
| Pending.
Arguments Ret {A} a.
Arguments Throw {A} e.
Arguments Pending {A}.

Definition M (A : Type) : Type := State -> Outcome A * State.

Definition ret {A} (a : A) : M A := fun st => (Ret a, st).

Definition bind {A B} (m : M A) (k : A -> M B) : M B :=
  fun st =>
    match m st with
    | (Ret a, st') => k a st'
    | (Throw e, st') => (Throw e, st')
    | (Pending, st') => (Pending, st')
    end.

Definition throw {A} (e : Error) : M A := fun st => (Throw e, st).

(** [try { m } catch (e) { h e }]: a computation that never settles is
    never caught. *)
Definition try_catch {A} (m : M A) (h : Error -> M A) : M A :=
  fun st =>
    match m st with
    | (Throw e, st') => h e st'
    | r => r
    end.

Definition modify (f : State -> State) : M unit := fun st => (Ret tt, f st).

Definition when (b : bool) (m : M unit) : M unit := if b then m else ret tt.

Global Instance M_ret : MRet M := @ret.
Global Instance M_bind : MBind M := fun A B k m => bind m k.

(** ** The calls the handler makes *)

Section Handler.

Context (env : Env).

(** [new Error(msg)] *)
Definition new_Error (msg : string) : Error := mkError msg (env_stack env msg).

Definition console_log (args : list value) : M unit := modify (emit (EvLog args)).
Definition console_error (args : list value) : M unit :=
  modify (emit (EvError args)).

(** [Date.now()] *)
Definition date_now : M Z := fun st => (Ret (env_now env (ticks st)), tick st).

Definition digits36 : string := "0123456789abcdefghijklmnopqrstuvwxyz".

Definition digit36 (d : nat) : ascii :=
  match String.get (d mod 36)%nat digits36 with
  | Some c => c
  | None => "0"%char
  end.

(** [Math.random().toString(36)]: [0] for zero, else [0.] and the digits. *)
Definition random_toString36 : string :=
  match env_random env with
  | [] => "0"
  | ds => "0." ++ JsString.of_chars (map digit36 ds)
  end.

(** [(x / 1024 / 1024).toFixed(2)] and the like *)
Definition megabytes (size : Z) : string :=
  env_toFixed env 2
    (env_div env (env_div env (num_of_Z size) (num_of_Z 1024)) (num_of_Z 1024)).

(** [await axios.get(url, config)] *)
Definition axios_get (url : value) (config : AxiosConfig) : M (list byte) :=
  fun st =>
    let st := emit (EvAxiosGet url config) st in
    match env_axios_get env url config with
    | inl e => (Throw e, st)
    | inr stream => (Ret stream, st)
    end.

(** [fs.createWriteStream(path)], [stream.pipe(writer)] and the promise
    settled by the writer's [finish] and [error] events. *)
Definition pipe_to_file (stream : list byte) (path : string) : M unit :=
  fun st =>
    let st := emit (EvCreateWriteStream path) st in
    match env_pipe env path stream with
    | PipeFinish =>
        (Ret tt, emit (EvWriterFinish path) (set_disk (<[path := stream]> (disk st)) st))
    | PipeError e written =>
        (Throw e, emit (EvWriterError path) (set_disk (leave path written (disk st)) st))
    | PipePending written =>
        (Pending, set_disk (leave path written (disk st)) st)
    end.

Definition enoent (call path : string) : Error :=
  new_Error ("ENOENT: no such file or directory, " ++ call ++ " '" ++ path ++ "'").

(** [fs.statSync(path).size] *)
Definition stat_size (path : string) : M Z :=
  fun st =>
    let st := emit (EvStat path) st in
    match disk st !! path with
    | Some bytes => (Ret (Z.of_nat (length bytes)), st)
    | None => (Throw (enoent "stat" path), st)
    end.

(** [fs.existsSync(path)] *)
Definition existsSync (path : string) : M bool :=
  fun st =>
    let found := bool_decide (is_Some (disk st !! path)) in
    (Ret found, emit (EvExists path found) st).

(** [fs.readFileSync(path)] *)
Definition readFileSync (path : string) : M (list byte) :=
  fun st =>
    match disk st !! path with
    | Some bytes =>
        match env_readFile env path with
        | Some e => (Throw e, emit (EvReadFile path None) st)
        | None => (Ret bytes, emit (EvReadFile path (Some bytes)) st)
        end
    | None => (Throw (enoent "open" path), emit (EvReadFile path None) st)
    end.

(** [fs.unlinkSync(path)] *)
Definition unlinkSync (path : string) : M unit :=
  fun st =>
    let st := emit (EvUnlink path) st in
    match disk st !! path with
    | Some _ =>
        match env_unlink env path with
        | Some e => (Throw e, st)
        | None => (Ret tt, set_disk (delete path (disk st)) st)
        end
    | None => (Throw (enoent "unlink" path), st)
    end.

(** The [progress] listener: logs a percentage that is present and not 0. *)
Definition on_progress (percent : option Q) : M unit :=
  match percent with
  | Some p =>
      when (truthy (VNum p))
        (console_log [VStr ("Progress: " ++ env_toFixed env 1 p ++ "%")])
  | None => ret tt
  end.

Fixpoint on_progresses (ps : list (option Q)) : M unit :=
  match ps with
  | [] => ret tt
  | p :: rest => on_progress p ;; on_progresses rest
  end.

(** The promise around [ffmpeg()...run()]: the listeners of [start],
    [progress], [end] and [error]. *)
Definition ffmpeg_run (cmd : FfmpegCommand) : M unit :=
  fun st =>
    let st := emit (EvFfmpegRun cmd) st in
    let run := env_ffmpeg env cmd (disk st) in
    let listeners : M unit :=
      match started run with
      | Some line => console_log [VStr "FFmpeg command:"; VStr line]
      | None => ret tt
      end ;;
      on_progresses (progress run) ;;
      match result run with
      | FfmpegEnd written =>
          modify (fun st => set_disk (leave (output cmd) written (disk st)) st) ;;
          modify (emit EvFfmpegEnd) ;;
          console_log [VStr "FFmpeg merge complete!"]
      | FfmpegError msg stderr written =>
          modify (fun st => set_disk (leave (output cmd) written (disk st)) st) ;;
          modify (emit EvFfmpegError) ;;
          console_error [VStr "FFmpeg error:"; VStr msg] ;;
          console_error [VStr "FFmpeg stderr:"; VStr stderr] ;;
          throw (new_Error ("FFmpeg error: " ++ msg))
      | FfmpegPending => fun st => (Pending, st)
      end
    in listeners st.

(** [res.status(code)] and [res.json(body)] *)
Definition res_status (code : Z) : M unit := modify (set_statusCode code).

Definition res_json (body : value) : M unit :=
  fun st =>
    let r := mkResponse (statusCode st) body in
    (Ret tt, set_sent r (emit (EvSend r) st)).

(** ** POST /merge *)

Definition get {A} (f : State -> A) : M A := fun st => (Ret (f st), st).

Definition video_config : AxiosConfig :=
  mkAxiosConfig "stream" 60000 (50 * 1024 * 1024).

Definition audio_config : AxiosConfig :=
  mkAxiosConfig "stream" 30000 (10 * 1024 * 1024).

Definition merge_options : list string :=
  [ "-c:v copy"; "-c:a aac"; "-b:a 192k"; "-map 0:v:0"; "-map 1:a:0";
    "-shortest"; "-movflags +faststart"; "-y" ].

Definition merge_command (videoPath audioPath outputPath : string)
  : FfmpegCommand :=
  mkFfmpegCommand [videoPath; audioPath] merge_options outputPath.

(** [path.join(tempDir, `video_${timestamp}_${randomId}.mp4`)] and its
    two siblings, which differ in the prefix and the extension. *)
Definition temp_file (tempDir stem : string) (timestamp : Z)
    (randomId ext : string) : string :=
  Path.join [tempDir; stem ++ pretty timestamp ++ "_" ++ randomId ++ ext].

(** [if (fs.existsSync(p)) fs.unlinkSync(p)] *)
Definition unlink_if_exists (path : string) : M unit :=
  there ← existsSync path;
  when there (unlinkSync path).

(** [if (p && fs.existsSync(p)) fs.unlinkSync(p)] *)
Definition unlink_if_set (p : option string) : M unit :=
  match p with
  | Some path =>
      if JsString.nonempty path then unlink_if_exists path else ret tt
  | None => ret tt
  end.

Definition log_cleanup_error (cleanupError : Error) : M unit :=
  console_error [VStr "Cleanup error:"; VErr cleanupError].

(** The cleanup of the success path. *)
Definition cleanup (videoPath audioPath outputPath : string) : M unit :=
  try_catch
    (unlink_if_exists videoPath ;;
     unlink_if_exists audioPath ;;
     unlink_if_exists outputPath)
    log_cleanup_error.

(** The cleanup of the [catch] block, on the variables as they are. *)
Definition cleanup_on_error : M unit :=
  try_catch
    (vp ← get videoPath; unlink_if_set vp ;;
     ap ← get audioPath; unlink_if_set ap ;;
     op ← get outputPath; unlink_if_set op)
    log_cleanup_error.

Definition missing_fields : value :=
  VObj [ ("error", VStr "Missing required fields");
         ("required", VArr [VStr "videoUrl"; VStr "audioUrl"]) ].

Definition success_body (base64Video : string)
    (videoSize audioSize outputSize : Z) (processingTime : string) : value :=
  VObj [ ("success", VBool true);
         ("base64", VStr base64Video);
         ("stats", VObj [ ("inputVideoSize", VNum (num_of_Z videoSize));
                          ("inputAudioSize", VNum (num_of_Z audioSize));
                          ("outputSize", VNum (num_of_Z outputSize));
                          ("processingTime",
                            VNum (env_parseFloat env processingTime));
                          ("outputSizeMB", VStr (megabytes outputSize)) ]);
         ("message", VStr "Video and audio merged successfully") ].

Definition failure_body (error : Error) : value :=
  VObj [ ("success", VBool false);
         ("error", VStr (message error));
         ("details", VStr (stack error)) ].

(** The body of the [try] block. *)
Definition merge_try (videoUrl audioUrl : value) (startTime : Z) : M unit :=
  let tempDir := "/tmp" in
  timestamp ← date_now;
  let randomId := JsString.substring_from 7 random_toString36 in
  let videoPath := temp_file tempDir "video_" timestamp randomId ".mp4" in
  let audioPath := temp_file tempDir "audio_" timestamp randomId ".mp3" in
  let outputPath := temp_file tempDir "output_" timestamp randomId ".mp4" in
  modify (set_videoPath videoPath) ;;
  modify (set_audioPath audioPath) ;;
  modify (set_outputPath outputPath) ;;
  console_log [ VStr "Temp files:";
                VObj [ ("videoPath", VStr videoPath);
                       ("audioPath", VStr audioPath);
                       ("outputPath", VStr outputPath) ] ] ;;
  console_log [VStr "Downloading video..."] ;;
  videoResponse ← axios_get videoUrl video_config;
  pipe_to_file videoResponse videoPath ;;
  videoSize ← stat_size videoPath;
  console_log [VStr ("Video downloaded: " ++ megabytes videoSize ++ " MB")] ;;
  console_log [VStr "Downloading audio..."] ;;
  audioResponse ← axios_get audioUrl audio_config;
  pipe_to_file audioResponse audioPath ;;
  audioSize ← stat_size audioPath;
  console_log [VStr ("Audio downloaded: " ++ megabytes audioSize ++ " MB")] ;;
  console_log [VStr "Starting FFmpeg merge..."] ;;
  ffmpeg_run (merge_command videoPath audioPath outputPath) ;;
  created ← existsSync outputPath;
  (if negb created then throw (new_Error "Output file was not created")
   else ret tt) ;;
  outputSize ← stat_size outputPath;
  console_log [VStr ("Merged video size: " ++ megabytes outputSize ++ " MB")] ;;
  console_log [VStr "Converting to base64..."] ;;
  mergedVideo ← readFileSync outputPath;
  let base64Video := Base64.encode mergedVideo in
  now ← date_now;
  let processingTime :=
    env_toFixed env 2 (env_div env (num_of_Z (now - startTime)) (num_of_Z 1000)) in
  console_log [VStr ("Total processing time: " ++ processingTime ++ "s")] ;;
  console_log [VStr "Cleaning up temp files..."] ;;
  cleanup videoPath audioPath outputPath ;;
  console_log [VStr "=== Merge Success ==="] ;;
  res_json (success_body base64Video videoSize audioSize outputSize processingTime).

(** The [catch] block. *)
Definition merge_catch (error : Error) : M unit :=
  console_error [VStr "=== Merge Error ==="] ;;
  console_error [VStr "Error:"; VStr (message error)] ;;
  console_error [VStr "Stack:"; VStr (stack error)] ;;
  cleanup_on_error ;;
  res_status 500 ;;
  res_json (failure_body error).

(** [app.post('/merge', async (req, res) => ...)] *)
Definition post_merge (req : Request) : M unit :=
  let videoUrl := field req "videoUrl" in
  let audioUrl := field req "audioUrl" in
  console_log [VStr "=== Merge Request Received ==="] ;;
  console_log [VStr "Video URL:"; videoUrl] ;;
  console_log [VStr "Audio URL:"; audioUrl] ;;
  if negb (truthy videoUrl) || negb (truthy audioUrl) then
    res_status 400 ;;
    res_json missing_fields
  else
    startTime ← date_now;
    try_catch (merge_try videoUrl audioUrl startTime) merge_catch.

(** A request served on a disk holding [files]. *)
Definition serve (req : Request) (files : gmap string (list byte))
  : Outcome unit * State :=
  post_merge req (initial files).

End Handler.

(** ** Observations on a run *)

(** The state after some events and a change of the disk. *)
Definition touch (d : gmap string (list byte)) (evs : list Event) (st : State)
  : State :=
  mkState d (trace st ++ evs) (ticks st) (videoPath st) (audioPath st)
    (outputPath st) (statusCode st) (sent st).

(** The events of a cleanup: existence checks, deletions and the log of a
    deletion that failed. *)
Definition is_cleanup_event (e : Event) : bool :=
  match e with
  | EvExists _ _ | EvUnlink _ => true
  | EvError [VStr "Cleanup error:"; VErr _] => true
  | _ => false
  end.

(** The events of the ffmpeg [progress] listener. *)
Definition is_progress_event (e : Event) : bool :=
  match e with
  | EvLog [VStr s] => JsString.starts_with "Progress: " s
  | _ => false
  end.

(** No deletion fails in this environment. *)
Definition no_unlink_failure (env : Env) : Prop :=
  forall p, env_unlink env p = None.

(** Every awaited promise settles in this environment. *)
Definition settles (env : Env) : Prop :=
  (forall p s w, env_pipe env p s <> PipePending w) /\
  (forall c d, result (env_ffmpeg env c d) <> FfmpegPending).

(** The three temp files are gone from the disk. *)
Definition temps_gone (st : State) : Prop :=
  forall p,
    videoPath st = Some p \/ audioPath st = Some p \/ outputPath st = Some p ->
    disk st !! p = None.

(** The value under a key of a JSON object. *)
Fixpoint assoc (key : string) (fields : list (string * value)) : option value :=
  match fields with
  | [] => None
  | (k, v) :: rest => if String.eqb k key then Some v else assoc key rest
  end.

Definition member (key : string) (v : value) : option value :=
  match v with
  | VObj fields => assoc key fields
  | _ => None
  end.

(** The three shapes of an answer. *)
Definition is_rejection (r : Response) : Prop :=
  status r = 400 /\
  exists error required,
    json r = VObj [ ("error", VStr error); ("required", VArr required) ].

Definition is_success (r : Response) : Prop :=
  status r = 200 /\
  exists base64 inputVideoSize inputAudioSize outputSize processingTime
         outputSizeMB message,
    json r =
      VObj [ ("success", VBool true);
             ("base64", VStr base64);
             ("stats", VObj [ ("inputVideoSize", VNum inputVideoSize);
                              ("inputAudioSize", VNum inputAudioSize);
                              ("outputSize", VNum outputSize);
                              ("processingTime", VNum processingTime);
                              ("outputSizeMB", VStr outputSizeMB) ]);
             ("message", VStr message) ].

Definition is_failure (r : Response) : Prop :=
  status r = 500 /\
  exists error details,
    json r = VObj [ ("success", VBool false);
                    ("error", VStr error);
                    ("details", VStr details) ].

(** The whole pipeline ran: both files were written, ffmpeg ended and its
    output was read. *)
Definition completed (st : State) : Prop :=
  exists vp ap op bytes,
    videoPath st = Some vp /\ audioPath st = Some ap /\ outputPath st = Some op /\
    In (EvWriterFinish vp) (trace st) /\
    In (EvWriterFinish ap) (trace st) /\
    In EvFfmpegEnd (trace st) /\
    In (EvReadFile op (Some bytes)) (trace st).

(** Some [axios.get] call of the run was rejected with [e]. *)
Definition fetch_rejected (env : Env) (tr : list Event) (e : Error) : Prop :=
  exists url config,
    In (EvAxiosGet url config) tr /\ env_axios_get env url config = inl e.

(** The ffmpeg commands and the [axios.get] calls of a run, in order. *)
Definition ffmpeg_runs (tr : list Event) : list FfmpegCommand :=
  flat_map (fun e => match e with EvFfmpegRun c => [c] | _ => [] end) tr.

Definition axios_calls (tr : list Event) : list (value * AxiosConfig) :=
  flat_map (fun e => match e with EvAxiosGet u c => [(u, c)] | _ => [] end) tr.

(** The paths whose deletion a run attempts, in order. *)
Definition unlinks (tr : list Event) : list string :=
  flat_map (fun e => match e with EvUnlink p => [p] | _ => [] end) tr.

(** The answers a run sends, in order. *)
Definition sends (tr : list Event) : list Response :=
  flat_map (fun e => match e with EvSend r => [r] | _ => [] end) tr.

(** The run got as far as the combine phase. *)
Definition reaches_combine (tr : list Event) : Prop :=
  In (EvLog [VStr "Starting FFmpeg merge..."]) tr.

(** The answer of the first existence check of a trace, and of the first
    one after ffmpeg has ended. *)
Fixpoint first_check (tr : list Event) : option bool :=
  match tr with
  | [] => None
  | EvExists _ found :: _ => Some found
  | _ :: rest => first_check rest
  end.

Fixpoint check_after_end (tr : list Event) : option bool :=
  match tr with
  | [] => None
  | EvFfmpegEnd :: rest => first_check rest
  | _ :: rest => check_after_end rest
  end.

(** Every event of [tr] that satisfies [Q] comes after an occurrence of [a]. *)
Definition precedes (a : Event) (Q : Event -> Prop) (tr : list Event) : Prop :=
  forall pre e post, tr = (pre ++ e :: post)%list -> Q e -> In a pre.

Definition is_audio_fetch (e : Event) : Prop :=
  exists url, e = EvAxiosGet url audio_config.

Definition is_ffmpeg_run (e : Event) : Prop :=
  exists cmd, e = EvFfmpegRun cmd.

(** The same environment with another behaviour of [fs.unlinkSync]. *)
Definition with_unlink (u : string -> option Error) (env : Env) : Env :=
  mkEnv (env_now env) (env_random env) (env_axios_get env) (env_pipe env)
    (env_ffmpeg env) u (env_readFile env) (env_stack env) (env_div env)
    (env_toFixed env) (env_parseFloat env).

(** ** A concrete world to run the handler in *)

Module Demo.

(** The binary64 number nearest to [x], ties to the even mantissa, for
    [x] in the normal range: the rounding of every number operation. *)
Definition binary64 (x : Q) : Q :=
  let n := Z.abs (Qnum x) in
  let d := Z.pos (Qden x) in
  if n =? 0 then 0%Q
  else
    let e0 := Z.log2 n - Z.log2 d in
    let above :=
      if 0 <=? e0 then 2 ^ e0 * d <=? n else d <=? n * 2 ^ (- e0) in
    let e := if above then e0 else e0 - 1 in
    let k := 52 - e in
    let num := if 0 <=? k then n * 2 ^ k else n in
    let den := if 0 <=? k then d else d * 2 ^ (- k) in
    let q := num / den in
    let r := num mod den in
    let m :=
      if den <? 2 * r then q + 1
      else if (2 * r =? den) && Z.odd q then q + 1
      else q in
    let magnitude :=
      if 0 <=? k then Qred (Qmake m (Z.to_pos (2 ^ k)))
      else inject_Z (m * 2 ^ (- k)) in
    if Qnum x <? 0 then Qopp magnitude else magnitude.

(** Division of two binary64 numbers, the divisor not 0. *)
Definition div (a b : Q) : Q := binary64 (a / b).

Fixpoint zeros (n : nat) : string :=
  match n with O => EmptyString | S k => String "0" (zeros k) end.

(** [x.toFixed(d)] of a binary64 number below [10^21]: the decimal with
    [d] digits nearest to the exact value of [x], the larger one in
    magnitude on a tie. *)
Definition toFixed (d : nat) (x : Q) : string :=
  let scale := 10 ^ Z.of_nat d in
  let n := Qfloor (Qabs x * inject_Z scale + (1 # 2)) in
  let whole := pretty (n / scale) in
  let frac := pretty (n mod scale) in
  let sign := if Qlt_le_dec x 0 then "-" else EmptyString in
  match d with
  | O => sign ++ whole
  | _ => sign ++ whole ++ "." ++ zeros (d - String.length frac) ++ frac
  end.

Fixpoint read_digits (s : string) (acc : Z) (count : nat) : Z * nat * string :=
  match s with
  | String c rest =>
      match Ascii.is_nat c with
      | Some d => read_digits rest (10 * acc + Z.of_nat d) (S count)
      | None => (acc, count, s)
      end
  | EmptyString => (acc, count, s)
  end.

(** Reads [digits] or [digits.digits], with an optional sign, to the
    nearest binary64 number. *)
Definition parseFloat (s : string) : Q :=
  let '(neg, s) :=
    match s with
    | String "-" rest => (true, rest)
    | _ => (false, s)
    end in
  let '(whole, _, rest) := read_digits s 0 O in
  let magnitude :=
    match rest with
    | String "." rest' =>
        let '(frac, k, _) := read_digits rest' 0 O in
        (inject_Z whole + inject_Z frac / inject_Z (10 ^ Z.of_nat k))%Q
    | _ => inject_Z whole
    end in
  binary64 (if neg then Qopp magnitude else magnitude).

Definition bytes_of (s : string) : list byte := map byte_of_ascii (JsString.chars s).

Definition video_url : string := "https://host/a.mp4".
Definition audio_url : string := "https://host/b.mp3".

Definition stack_of (msg : string) : string :=
  "Error: " ++ msg ++ String "010" "    at /app/index.js".

(** Both downloads succeed, ffmpeg writes its output, nothing fails. *)
Definition happy : Env :=
  {| env_now := fun k => 1700000000000 + 1250 * Z.of_nat k;
     env_random := [4; 17; 30; 2; 9; 35; 11; 0; 23; 8; 19]%nat;
     env_axios_get := fun url cfg =>
       match url with
       | VStr u => if String.eqb u video_url then inr (bytes_of "VIDEO-BYTES")
                   else inr (bytes_of "AUDIO")
       | _ => inl (mkError "Invalid URL" "TypeError: Invalid URL")
       end;
     env_pipe := fun _ _ => PipeFinish;
     env_ffmpeg := fun cmd files =>
       mkFfmpegRun (Some "ffmpeg -i video -i audio out")
         [None; Some (50 # 1); Some 0%Q]
         (FfmpegEnd (Some (bytes_of "Man")));
     env_unlink := fun _ => None;
     env_readFile := fun _ => None;
     env_stack := stack_of;
     env_div := div;
     env_toFixed := toFixed;
     env_parseFloat := parseFloat |}.

(** The temp files that [happy] makes the handler name. *)
Definition video_file : string := "/tmp/video_1700000001250_zb0n8j.mp4".
Definition audio_file : string := "/tmp/audio_1700000001250_zb0n8j.mp3".
Definition output_file : string := "/tmp/output_1700000001250_zb0n8j.mp4".

Definition request : Request :=
  mkRequest {[ "videoUrl" := VStr video_url; "audioUrl" := VStr audio_url ]}.

(** The same request with [audioUrl] left out. *)
Definition request_without_audio : Request :=
  mkRequest {[ "videoUrl" := VStr video_url ]}.

Definition eperm : Error :=
  mkError "EPERM: operation not permitted, unlink"
          "Error: EPERM: operation not permitted, unlink".

(** As [happy], but no file can be deleted. *)
Definition sticky : Env := with_unlink (fun _ => Some eperm) happy.

(** As [happy], but the video file alone cannot be deleted. *)
Definition stuck_video : Env :=
  with_unlink (fun p => if String.eqb p video_file then Some eperm else None)
    happy.

(** A 404 as axios reports it; the stack ends in the [await] that the
    rejection came from. *)
Definition not_found_at (site : string) : Error :=
  mkError "Request failed with status code 404"
          ("AxiosError: Request failed with status code 404"
             ++ String "010" ("    at async /app/index.js:" ++ site)).

Definition with_axios (get : value -> AxiosConfig -> Error + list byte)
    (env : Env) : Env :=
  mkEnv (env_now env) (env_random env) get (env_pipe env)
    (env_ffmpeg env) (env_unlink env) (env_readFile env) (env_stack env)
    (env_div env) (env_toFixed env) (env_parseFloat env).

(** The video URL answers 404. *)
Definition video_down : Env :=
  with_axios (fun url cfg =>
                match url with
                | VStr u => if String.eqb u video_url
                            then inl (not_found_at "63:39")
                            else env_axios_get happy url cfg
                | _ => env_axios_get happy url cfg
                end)
             happy.

(** The audio URL answers 404. *)
Definition audio_down : Env :=
  with_axios (fun url cfg =>
                match url with
                | VStr u => if String.eqb u audio_url
                            then inl (not_found_at "82:39")
                            else env_axios_get happy url cfg
                | _ => env_axios_get happy url cfg
                end)
             happy.

(** ffmpeg reports [end] without having written anything. *)
Definition silent : Env :=
  mkEnv (env_now happy) (env_random happy) (env_axios_get happy)
    (env_pipe happy)
    (fun cmd files => mkFfmpegRun None [] (FfmpegEnd None))
    (env_unlink happy) (env_readFile happy) (env_stack happy)
    (env_div happy) (env_toFixed happy) (env_parseFloat happy).

(** The same request with an empty [audioUrl]. *)
Definition request_with_empty_audio : Request :=
  mkRequest {[ "videoUrl" := VStr video_url; "audioUrl" := VStr EmptyString ]}.


(** ffmpeg never reports back. *)
Definition hung : Env :=
  mkEnv (env_now happy) (env_random happy) (env_axios_get happy)
    (env_pipe happy)
    (fun cmd files => mkFfmpegRun None [] FfmpegPending)
    (env_unlink happy) (env_readFile happy) (env_stack happy)
    (env_div happy) (env_toFixed happy) (env_parseFloat happy).

Definition enospc : Error :=
  mkError "ENOSPC: no space left on device, write"
          "Error: ENOSPC: no space left on device, write".

(** The disk is full after five bytes of the video. *)
Definition disk_full : Env :=
  mkEnv (env_now happy) (env_random happy) (env_axios_get happy)
    (fun path stream => PipeError enospc (Some (firstn 5 stream)))
    (env_ffmpeg happy)
    (env_unlink happy) (env_readFile happy) (env_stack happy)
    (env_div happy) (env_toFixed happy) (env_parseFloat happy).

Definition too_large : Error :=
  mkError "File size is greater than 2 GiB"
          "RangeError [ERR_FS_FILE_TOO_LARGE]: File size is greater than 2 GiB".

(** The merged file cannot be read back. *)
Definition unreadable : Env :=
  mkEnv (env_now happy) (env_random happy) (env_axios_get happy)
    (env_pipe happy) (env_ffmpeg happy)
    (env_unlink happy) (fun _ => Some too_large) (env_stack happy)
    (env_div happy) (env_toFixed happy) (env_parseFloat happy).

(** The response stream of the video breaks off after five bytes: its
    writer emits neither [finish] nor [error]. *)
Definition cut_video : Env :=
  mkEnv (env_now happy) (env_random happy) (env_axios_get happy)
    (fun path stream =>
       if String.eqb path video_file then PipePending (Some (firstn 5 stream))
       else PipeFinish)
    (env_ffmpeg happy)
    (env_unlink happy) (env_readFile happy) (env_stack happy)
    (env_div happy) (env_toFixed happy) (env_parseFloat happy).

(** A disk that holds a file of somebody else. *)
Definition other_file : string := "/tmp/upload_42.bin".
Definition busy_disk : gmap string (list byte) :=
  {[ other_file := bytes_of "KEEP" ]}.

End Demo.

(** * Proofs *)

(** *** Facts about the base64 codec *)

Module Base64Facts.
Import Base64.

Lemma index_of_char_of (n : N) : (n < 64)%N -> index_of (char_of n) = Some n.
Proof.
  intros Hn.
  assert (Hall : forallb (fun k => match index_of (char_of k) with
                                   | Some j => N.eqb j k
                                   | None => false
                                   end)
                   (map N.of_nat (seq 0 64)) = true) by (vm_compute; reflexivity).
  rewrite forallb_forall in Hall.
  specialize (Hall n).
  destruct (index_of (char_of n)) as [j|].
  - f_equal. apply N.eqb_eq. apply Hall.
    apply in_map_iff. exists (N.to_nat n). split; [lia|].
    apply in_seq. lia.
  - exfalso. assert (false = true); [|discriminate].
    apply Hall. apply in_map_iff. exists (N.to_nat n). split; [lia|].
    apply in_seq. lia.
Qed.

Lemma char_of_not_pad (n : N) : (n < 64)%N -> Ascii.eqb (char_of n) pad = false.
Proof.
  intros Hn.
  assert (Hall : forallb (fun k => negb (Ascii.eqb (char_of k) pad))
                   (map N.of_nat (seq 0 64)) = true) by (vm_compute; reflexivity).
  rewrite forallb_forall in Hall.
  apply negb_true_iff, Hall, in_map_iff.
  exists (N.to_nat n). split; [lia|]. apply in_seq. lia.
Qed.

Lemma to_N_lt (b : byte) : (Byte.to_N b < 256)%N.
Proof. pose proof (Byte.to_N_bounded b). lia. Qed.

End Base64Facts.

Module Base64Round.
Import Base64 Base64Facts.
Local Open Scope N_scope.

Lemma pack_div k q r : r < k -> (q * k + r) / k = q.
Proof. intros H. symmetry. apply (N.div_unique _ _ _ r); lia. Qed.

Lemma pack_mod k q r : r < k -> (q * k + r) mod k = r.
Proof. intros H. symmetry. apply (N.mod_unique _ _ q); lia. Qed.

Lemma unsplit k x : k <> 0 -> x / k * k + x mod k = x.
Proof. intros H. rewrite (N.div_mod' x k) at 3. lia. Qed.

Lemma div_bound x k m : k <> 0 -> x < k * m -> x / k < m.
Proof. intros. apply N.Div0.div_lt_upper_bound; lia. Qed.

(** The bounds of the groups cut out of a byte. *)
Lemma byte_groups (b : byte) :
  let x := Byte.to_N b in
  x / 4 < 64 /\ x mod 4 < 4 /\ x / 16 < 16 /\ x mod 16 < 16 /\
  x / 64 < 4 /\ x mod 64 < 64.
Proof.
  pose proof (to_N_lt b). cbv zeta.
  repeat split; try (apply div_bound; lia); apply N.mod_lt; lia.
Qed.

Ltac groups b :=
  let H := fresh "G" in
  pose proof (byte_groups b) as H; cbv zeta in H;
  destruct H as (? & ? & ? & ? & ? & ?).

Lemma of_N_to_N (b : byte) (n : N) : n = Byte.to_N b -> Byte.of_N n = Some b.
Proof. intros ->. apply Byte.of_to_N. Qed.

Lemma byte1_ok (a b : byte) :
  byte1 (to_N a / 4) (to_N a mod 4 * 16 + to_N b / 16) = Some a.
Proof.
  groups a. groups b. unfold byte1. apply of_N_to_N.
  rewrite pack_div by lia. apply unsplit. lia.
Qed.

Lemma byte1_ok_last (a : byte) :
  byte1 (to_N a / 4) (to_N a mod 4 * 16) = Some a.
Proof.
  unfold byte1. apply of_N_to_N.
  rewrite N.div_mul by lia. apply unsplit. lia.
Qed.

Lemma byte2_ok (a b c : byte) :
  byte2 (to_N a mod 4 * 16 + to_N b / 16) (to_N b mod 16 * 4 + to_N c / 64)
  = Some b.
Proof.
  groups a. groups b. groups c. unfold byte2. apply of_N_to_N.
  rewrite pack_mod, pack_div by lia. apply unsplit. lia.
Qed.

Lemma byte2_ok_last (a b : byte) :
  byte2 (to_N a mod 4 * 16 + to_N b / 16) (to_N b mod 16 * 4) = Some b.
Proof.
  groups a. groups b. unfold byte2. apply of_N_to_N.
  rewrite pack_mod by lia. rewrite N.div_mul by lia. apply unsplit. lia.
Qed.

Lemma byte3_ok (b c : byte) :
  byte3 (to_N b mod 16 * 4 + to_N c / 64) (to_N c mod 64) = Some c.
Proof.
  groups b. groups c. unfold byte3. apply of_N_to_N.
  rewrite pack_mod by lia. apply unsplit. lia.
Qed.

Lemma list_ind3 {A} (P : list A -> Prop) :
  P [] -> (forall a, P [a]) -> (forall a b, P [a; b]) ->
  (forall a b c l, P l -> P (a :: b :: c :: l)) ->
  forall l, P l.
Proof.
  intros H0 H1 H2 H3.
  fix IH 1. intros [|a [|b [|c l]]].
  - exact H0.
  - apply H1.
  - apply H2.
  - apply H3, IH.
Qed.

Lemma decode_encode (bs : list byte) : decode (encode bs) = Some bs.
Proof.
  induction bs as [|a|a b|a b c l IH] using list_ind3.
  - reflexivity.
  - groups a.
    cbn [encode decode].
    rewrite !index_of_char_of by lia.
    cbn [mbind option_bind].
    rewrite byte1_ok_last. reflexivity.
  - groups a. groups b.
    cbn [encode decode].
    rewrite !index_of_char_of by lia.
    cbn [mbind option_bind].
    rewrite byte1_ok. cbn [mbind option_bind].
    rewrite char_of_not_pad by lia.
    rewrite byte2_ok_last. reflexivity.
  - groups a. groups b. groups c.
    cbn [encode decode].
    rewrite !index_of_char_of by lia.
    cbn [mbind option_bind].
    rewrite byte1_ok. cbn [mbind option_bind].
    rewrite !char_of_not_pad by lia.
    rewrite byte2_ok. cbn [mbind option_bind].
    rewrite byte3_ok. cbn [mbind option_bind].
    rewrite IH. reflexivity.
Qed.
End Base64Round.

(** *** Facts about paths and the names of the temp files *)

Module PathFacts.
Import Path.

Lemma slash_free_empty : slash_free EmptyString.
Proof. intros []. Qed.

Lemma slash_free_cons c s : c <> slash -> slash_free s -> slash_free (String c s).
Proof. intros Hc Hs [H|H]; [congruence | exact (Hs H)]. Qed.

Lemma slash_free_inv c s : slash_free (String c s) -> c <> slash /\ slash_free s.
Proof.
  intros H. split.
  - intros ->. apply H. now left.
  - intros Hs. apply H. now right.
Qed.

Lemma chars_app s t : JsString.chars (s ++ t) = (JsString.chars s ++ JsString.chars t)%list.
Proof. induction s as [|c s IH]; simpl; [reflexivity | now rewrite IH]. Qed.

Lemma slash_free_app s t : slash_free s -> slash_free t -> slash_free (s ++ t).
Proof.
  unfold slash_free. rewrite chars_app, in_app_iff. tauto.
Qed.

Lemma segments_slash_free s : slash_free s -> segments s = [s].
Proof.
  induction s as [|c s IH]; intros H; [reflexivity|].
  apply slash_free_inv in H as [Hc Hs].
  cbn [segments]. rewrite (IH Hs).
  destruct (Ascii.eqb_spec c slash); [contradiction | reflexivity].
Qed.

Lemma last_char_app s t :
  JsString.nonempty t = true -> last_char (s ++ t) = last_char t.
Proof.
  intros Ht. induction s as [|d s IH]; [reflexivity|].
  rewrite <- IH.
  change (String d s ++ t) with (String d (s ++ t)).
  destruct (s ++ t) eqn:E; [|reflexivity].
  destruct s; [|discriminate]. change (EmptyString ++ t) with t in E. subst t. discriminate.
Qed.

Lemma last_char_in s c : last_char s = Some c -> In c (JsString.chars s).
Proof.
  induction s as [|d s IH]; [discriminate|].
  cbn [last_char JsString.chars]. destruct s as [|d' s'].
  - intros [= ->]. now left.
  - intros H. right. exact (IH H).
Qed.

(** Joining the temp directory with a plain file name only puts the
    separator between them. *)
Lemma join_plain (file : string) :
  slash_free file -> file <> EmptyString -> file <> "." -> file <> ".." ->
  join ["/tmp"; file] = "/tmp/" ++ file.
Proof.
  intros Hfree Hne0 Hdot Hdots.
  assert (Hne : JsString.nonempty file = true).
  { destruct file; [contradiction | reflexivity]. }
  unfold join. cbn [List.filter JsString.nonempty]. rewrite Hne.
  cbn [fold_left]. unfold normalize.
  change ("/tmp" ++ "/" ++ file)
    with (String "/" (String "t" (String "m" (String "p" (String "/" file))))).
  cbn [JsString.nonempty negb first_is_slash].
  replace (Ascii.eqb "/" slash) with true by reflexivity.
  cbv iota.
  assert (Hseg : segments (String "/" (String "t" (String "m" (String "p" (String "/" file)))))
                 = [EmptyString; "tmp"; file]).
  { cbn [segments]. rewrite (segments_slash_free file Hfree). reflexivity. }
  rewrite Hseg.
  assert (Hres : resolve false [] [EmptyString; "tmp"; file] = ["tmp"; file]).
  { cbn [resolve]. cbn [String.eqb orb Ascii.eqb Bool.eqb].
    destruct (String.eqb_spec file EmptyString); [contradiction|].
    destruct (String.eqb_spec file "."); [contradiction|].
    destruct (String.eqb_spec file ".."); [contradiction|].
    reflexivity. }
  cbn [negb]. rewrite Hres.
  cbn [join_with_slash].
  change ("tmp" ++ "/" ++ file) with (String "t" (String "m" (String "p" (String "/" file)))).
  cbn [JsString.nonempty negb].
  assert (Hl : last_is_slash (String "/" (String "t" (String "m" (String "p" (String "/" file))))) = false).
  { unfold last_is_slash.
    change (String "/" (String "t" (String "m" (String "p" (String "/" file)))))
      with ("/tmp/" ++ file).
    rewrite last_char_app by exact Hne.
    destruct (last_char file) as [d|] eqn:E; [|reflexivity].
    destruct (Ascii.eqb_spec d slash) as [->|]; [|reflexivity].
    destruct (Hfree (last_char_in _ _ E)). }
  rewrite Hl. reflexivity.
Qed.

Lemma join_nonempty (args : list string) : join args <> EmptyString.
Proof.
  unfold join. destruct (List.filter _ args) as [|a rest]; [discriminate|].
  unfold normalize.
  repeat match goal with
         | |- context [if ?b then _ else _] => destruct b eqn:?
         end; try discriminate.
  - destruct (join_with_slash _); [discriminate|]. discriminate.
  - destruct (join_with_slash _); discriminate.
Qed.

Lemma slash_free_substring n s :
  slash_free s -> slash_free (JsString.substring_from n s).
Proof.
  revert s. induction n as [|n IH]; intros s Hs; [destruct s; exact Hs|].
  destruct s as [|c s]; [exact Hs|].
  cbn [JsString.substring_from]. apply IH.
  now apply slash_free_inv in Hs.
Qed.

Lemma slash_free_pretty_N_go (x : N) (s : string) :
  slash_free s -> slash_free (pretty_N_go x s).
Proof.
  revert s. induction (N.lt_wf_0 x) as [x _ IH]; intros s Hs.
  destruct (N.eq_dec x 0%N) as [->|Hx].
  - now rewrite pretty_N_go_0.
  - rewrite pretty_N_go_step by lia. apply IH.
    + apply N.div_lt; lia.
    + apply slash_free_cons; [|exact Hs].
      unfold pretty_N_char. repeat case_match; discriminate.
Qed.

Lemma slash_free_pretty_N (x : N) : slash_free (pretty x).
Proof.
  unfold pretty, pretty_N. case_decide.
  - apply slash_free_cons; [discriminate | apply slash_free_empty].
  - apply slash_free_pretty_N_go, slash_free_empty.
Qed.

Lemma slash_free_pretty_Z (z : Z) : slash_free (pretty z).
Proof.
  destruct z as [|p|p]; unfold pretty, pretty_Z.
  - apply slash_free_cons; [discriminate | apply slash_free_empty].
  - apply slash_free_pretty_N.
  - apply (slash_free_app "-").
    + apply slash_free_cons; [discriminate | apply slash_free_empty].
    + apply slash_free_pretty_N.
Qed.

End PathFacts.

Module TempFacts.
Import Path PathFacts.

Lemma digit36_not_slash (d : nat) : digit36 d <> slash.
Proof.
  assert (Hall : forallb (fun k => negb (Ascii.eqb (digit36 k) slash)) (seq 0 36) = true)
    by (vm_compute; reflexivity).
  assert (Hd : digit36 d = digit36 (d mod 36)).
  { unfold digit36. now rewrite Nat.Div0.mod_mod. }
  assert (Hin : In (d mod 36)%nat (seq 0 36)).
  { apply in_seq. pose proof (Nat.mod_upper_bound d 36). lia. }
  pose proof (proj1 (forallb_forall _ _) Hall _ Hin) as H.
  cbv beta in H. rewrite <- Hd in H.
  intros E. rewrite E in H. discriminate H.
Qed.

Lemma slash_free_digits (ds : list nat) :
  slash_free (JsString.of_chars (map digit36 ds)).
Proof.
  induction ds as [|d ds IH]; [apply slash_free_empty|].
  apply slash_free_cons; [apply digit36_not_slash | exact IH].
Qed.

Lemma slash_free_random (env : Env) : slash_free (random_toString36 env).
Proof.
  unfold random_toString36. destruct (env_random env) as [|d ds].
  - apply slash_free_cons; [discriminate | apply slash_free_empty].
  - apply (slash_free_app "0.").
    + repeat (apply slash_free_cons; [discriminate|]). apply slash_free_empty.
    + apply slash_free_digits.
Qed.

(** A temp file of the handler sits directly in the temp directory. *)
Lemma temp_file_plain (c : ascii) (stem : string) (ts : Z) (rid ext : string) :
  c <> "."%char -> slash_free (String c stem) -> slash_free rid ->
  slash_free ext ->
  temp_file "/tmp" (String c stem) ts rid ext
  = "/tmp/" ++ String c stem ++ pretty ts ++ "_" ++ rid ++ ext.
Proof.
  intros Hc Hstem Hrid Hext. unfold temp_file.
  apply join_plain.
  - apply slash_free_app; [exact Hstem|].
    apply slash_free_app; [apply slash_free_pretty_Z|].
    apply (slash_free_app "_").
    + apply slash_free_cons; [discriminate | apply slash_free_empty].
    + now apply slash_free_app.
  - discriminate.
  - change (String c stem ++ ?r) with (String c (stem ++ r)).
    intros [= E _]. contradiction.
  - change (String c stem ++ ?r) with (String c (stem ++ r)).
    intros [= E _]. contradiction.
Qed.

Ltac literal_slash_free :=
  repeat (apply slash_free_cons; [discriminate|]); apply slash_free_empty.

(** The three temp files of one request are three different paths. *)
Lemma temp_files_distinct (ts : Z) (rid : string) :
  slash_free rid ->
  let v := temp_file "/tmp" "video_" ts rid ".mp4" in
  let a := temp_file "/tmp" "audio_" ts rid ".mp3" in
  let o := temp_file "/tmp" "output_" ts rid ".mp4" in
  v <> a /\ v <> o /\ a <> o.
Proof.
  intros Hrid. cbv zeta.
  rewrite !temp_file_plain by (try discriminate; try exact Hrid; literal_slash_free).
  repeat split; intros E; cbv [String.append] in E; discriminate E.
Qed.
End TempFacts.

(** *** How the parts of the handler run *)

Module Runs.

Section WithEnv.
Context (env : Env).

Lemma touch_touch d1 evs1 d2 evs2 st :
  touch d2 evs2 (touch d1 evs1 st) = touch d2 (evs1 ++ evs2)%list st.
Proof. unfold touch. cbn. now rewrite <- app_assoc. Qed.

Lemma emit_touch e st : emit e st = touch (disk st) [e] st.
Proof. reflexivity. Qed.

(** A progress listener only logs. *)
Lemma on_progresses_run (ps : list (option Q)) (st : State) :
  exists evs,
    on_progresses env ps st = (Ret tt, touch (disk st) evs st) /\
    forallb is_progress_event evs = true.
Proof.
  revert st. induction ps as [|p ps IH]; intros st.
  - exists []. split; [|reflexivity].
    unfold touch. cbn. rewrite app_nil_r. now destruct st.
  - cbn [on_progresses]. unfold mbind, M_bind, bind.
    assert (Hp : exists evs, on_progress env p st = (Ret tt, touch (disk st) evs st)
                             /\ forallb is_progress_event evs = true).
    { destruct p as [q|]; cbn [on_progress].
      - destruct (truthy (VNum q)); cbn [when].
        + eexists [_]. split; [reflexivity|]. reflexivity.
        + exists []. split; [|reflexivity].
          unfold ret, touch. rewrite app_nil_r. now destruct st.
      - exists []. split; [|reflexivity].
        unfold ret, touch. rewrite app_nil_r. now destruct st. }
    destruct Hp as (evs1 & -> & H1).
    destruct (IH (touch (disk st) evs1 st)) as (evs2 & -> & H2).
    exists (evs1 ++ evs2)%list. split.
    + now rewrite touch_touch.
    + rewrite forallb_app, H1, H2. reflexivity.
Qed.

(** One guarded deletion: afterwards the path is gone and nothing was
    added, or the deletion failed. *)
Lemma unlink_if_exists_run (p : string) (st : State) :
  exists o d evs,
    unlink_if_exists env p st = (o, touch d evs st) /\
    forallb is_cleanup_event evs = true /\
    d ⊆ disk st /\
    match o with
    | Ret _ => d !! p = None
    | Throw e => env_unlink env p = Some e
    | Pending => False
    end.
Proof.
  unfold unlink_if_exists, existsSync, unlinkSync, mbind, M_bind, bind, when.
  cbn [disk emit].
  destruct (disk st !! p) as [bytes|] eqn:Hp.
  - rewrite bool_decide_true by eauto.
    cbn [disk emit]. rewrite Hp.
    destruct (env_unlink env p) as [e|] eqn:He.
    + exists (Throw e), (disk st), [EvExists p true; EvUnlink p].
      split; [|auto].
      unfold touch, emit. cbn. now rewrite <- app_assoc.
    + exists (Ret tt), (delete p (disk st)), [EvExists p true; EvUnlink p].
      split; [|split; [reflexivity|split; [apply delete_subseteq|apply lookup_delete_eq]]].
      unfold touch, emit, set_disk. cbn. now rewrite <- app_assoc.
  - rewrite bool_decide_false by (intros [? ?]; congruence).
    exists (Ret tt), (disk st), [EvExists p false]. auto.
Qed.

Lemma unlink_if_set_run (po : option string) (st : State) :
  exists o d evs,
    unlink_if_set env po st = (o, touch d evs st) /\
    forallb is_cleanup_event evs = true /\
    d ⊆ disk st /\
    match o with
    | Ret _ => forall p, po = Some p -> p <> EmptyString -> d !! p = None
    | Throw e => exists p, env_unlink env p = Some e
    | Pending => False
    end.
Proof.
  destruct po as [p|]; cbn [unlink_if_set].
  - destruct p as [|c p]; cbn [JsString.nonempty].
    + exists (Ret tt), (disk st), [].
      split; [unfold ret, touch; rewrite app_nil_r; now destruct st|].
      split; [reflexivity|]. split; [reflexivity|].
      intros ? [= <-] ?. contradiction.
    + destruct (unlink_if_exists_run (String c p) st) as (o & d & evs & -> & Hev & Hd & Ho).
      exists o, d, evs. repeat split; auto.
      destruct o; eauto. intros ? [= <-] _. exact Ho.
  - exists (Ret tt), (disk st), [].
    split; [unfold ret, touch; rewrite app_nil_r; now destruct st|].
    split; [reflexivity|]. split; [reflexivity|]. discriminate.
Qed.

(** The cleanup after a success always completes; when no deletion
    fails, the three paths are gone. *)
Lemma cleanup_run (vp ap op : string) (st : State) :
  exists d evs,
    cleanup env vp ap op st = (Ret tt, touch d evs st) /\
    forallb is_cleanup_event evs = true /\
    d ⊆ disk st /\
    (no_unlink_failure env ->
     d !! vp = None /\ d !! ap = None /\ d !! op = None).
Proof.
  unfold cleanup, try_catch, mbind, M_bind, bind.
  destruct (unlink_if_exists_run vp st) as (o1 & d1 & evs1 & -> & Hev1 & Hd1 & Ho1).
  destruct o1 as [[]|e|]; [| |contradiction].
  2:{ exists d1, (evs1 ++ [EvError [VStr "Cleanup error:"; VErr e]])%list.
      split; [unfold log_cleanup_error, console_error, modify; now rewrite emit_touch, touch_touch|].
      split; [rewrite forallb_app, Hev1; reflexivity|].
      split; [exact Hd1|].
      intros Hno. rewrite Hno in Ho1. discriminate. }
  destruct (unlink_if_exists_run ap (touch d1 evs1 st))
    as (o2 & d2 & evs2 & -> & Hev2 & Hd2 & Ho2).
  cbn [disk touch] in Hd2. rewrite touch_touch.
  destruct o2 as [[]|e|]; [| |contradiction].
  2:{ exists d2, ((evs1 ++ evs2) ++ [EvError [VStr "Cleanup error:"; VErr e]])%list.
      split; [unfold log_cleanup_error, console_error, modify; now rewrite emit_touch, touch_touch|].
      split; [rewrite !forallb_app, Hev1, Hev2; reflexivity|].
      split; [etrans; eassumption|].
      intros Hno. rewrite Hno in Ho2. discriminate. }
  destruct (unlink_if_exists_run op (touch d2 (evs1 ++ evs2) st))
    as (o3 & d3 & evs3 & -> & Hev3 & Hd3 & Ho3).
  cbn [disk touch] in Hd3. rewrite touch_touch.
  destruct o3 as [[]|e|]; [| |contradiction].
  2:{ exists d3, (((evs1 ++ evs2) ++ evs3) ++ [EvError [VStr "Cleanup error:"; VErr e]])%list.
      split; [unfold log_cleanup_error, console_error, modify; now rewrite emit_touch, touch_touch|].
      split; [rewrite !forallb_app, Hev1, Hev2, Hev3; reflexivity|].
      split; [do 2 (etrans; [eassumption|]); exact Hd1|].
      intros Hno. rewrite Hno in Ho3. discriminate. }
  exists d3, ((evs1 ++ evs2) ++ evs3)%list.
  split; [reflexivity|].
  split; [rewrite !forallb_app, Hev1, Hev2, Hev3; reflexivity|].
  split; [do 2 (etrans; [eassumption|]); exact Hd1|].
  intros _. repeat split.
  - eapply lookup_weaken_None; [|exact Hd3].
    eapply lookup_weaken_None; [exact Ho1|exact Hd2].
  - eapply lookup_weaken_None; [exact Ho2|exact Hd3].
  - exact Ho3.
Qed.

(** The cleanup of the [catch] block, likewise, on the paths the
    variables hold. *)
Lemma cleanup_on_error_run (st : State) :
  exists d evs,
    cleanup_on_error env st = (Ret tt, touch d evs st) /\
    forallb is_cleanup_event evs = true /\
    d ⊆ disk st /\
    (no_unlink_failure env ->
     forall p, p <> EmptyString ->
       videoPath st = Some p \/ audioPath st = Some p \/ outputPath st = Some p ->
       d !! p = None).
Proof.
  unfold cleanup_on_error, try_catch, mbind, M_bind, bind, get.
  destruct (unlink_if_set_run (videoPath st) st)
    as (o1 & d1 & evs1 & -> & Hev1 & Hd1 & Ho1).
  destruct o1 as [[]|e|]; [| |contradiction].
  2:{ exists d1, (evs1 ++ [EvError [VStr "Cleanup error:"; VErr e]])%list.
      split; [unfold log_cleanup_error, console_error, modify; now rewrite emit_touch, touch_touch|].
      split; [rewrite forallb_app, Hev1; reflexivity|].
      split; [exact Hd1|].
      intros Hno. destruct Ho1 as [q Hq]. rewrite Hno in Hq. discriminate. }
  cbn [audioPath touch].
  destruct (unlink_if_set_run (audioPath st) (touch d1 evs1 st))
    as (o2 & d2 & evs2 & -> & Hev2 & Hd2 & Ho2).
  cbn [disk touch] in Hd2. rewrite touch_touch.
  destruct o2 as [[]|e|]; [| |contradiction].
  2:{ exists d2, ((evs1 ++ evs2) ++ [EvError [VStr "Cleanup error:"; VErr e]])%list.
      split; [unfold log_cleanup_error, console_error, modify; now rewrite emit_touch, touch_touch|].
      split; [rewrite !forallb_app, Hev1, Hev2; reflexivity|].
      split; [etrans; eassumption|].
      intros Hno. destruct Ho2 as [q Hq]. rewrite Hno in Hq. discriminate. }
  cbn [outputPath touch].
  destruct (unlink_if_set_run (outputPath st) (touch d2 (evs1 ++ evs2) st))
    as (o3 & d3 & evs3 & -> & Hev3 & Hd3 & Ho3).
  cbn [disk touch] in Hd3. rewrite touch_touch.
  destruct o3 as [[]|e|]; [| |contradiction].
  2:{ exists d3, (((evs1 ++ evs2) ++ evs3) ++ [EvError [VStr "Cleanup error:"; VErr e]])%list.
      split; [unfold log_cleanup_error, console_error, modify; now rewrite emit_touch, touch_touch|].
      split; [rewrite !forallb_app, Hev1, Hev2, Hev3; reflexivity|].
      split; [do 2 (etrans; [eassumption|]); exact Hd1|].
      intros Hno. destruct Ho3 as [q Hq]. rewrite Hno in Hq. discriminate. }
  exists d3, ((evs1 ++ evs2) ++ evs3)%list.
  split; [reflexivity|].
  split; [rewrite !forallb_app, Hev1, Hev2, Hev3; reflexivity|].
  split; [do 2 (etrans; [eassumption|]); exact Hd1|].
  intros _ p Hp [H|[H|H]].
  - eapply lookup_weaken_None; [|exact Hd3].
    eapply lookup_weaken_None; [|exact Hd2]. now apply Ho1.
  - eapply lookup_weaken_None; [|exact Hd3]. now apply Ho2.
  - now apply Ho3.
Qed.
End WithEnv.
End Runs.

(** *** Running the whole handler *)

Module Exec.
Export Runs.

#[global] Arguments temp_file : simpl never.
#[global] Arguments megabytes : simpl never.
#[global] Arguments cleanup : simpl never.
#[global] Arguments cleanup_on_error : simpl never.
#[global] Arguments on_progresses : simpl never.
#[global] Arguments new_Error : simpl never.
#[global] Arguments enoent : simpl never.
#[global] Arguments JsString.substring_from : simpl never.
#[global] Arguments Base64.encode : simpl never.
#[global] Arguments Base64.decode : simpl never.
#[global] Arguments leave : simpl never.

Ltac unfold_handler :=
  unfold serve, post_merge, merge_try, merge_catch, axios_get, pipe_to_file,
    stat_size, existsSync, readFileSync, ffmpeg_run, res_status, res_json,
    console_log, console_error, date_now, get, modify, throw, when,
    mbind, M_bind, bind, try_catch, ret.

(** The parts with a run lemma are replaced by their outcome; what the
    lemma says of the disk is kept on demand only. *)
Ltac run_part_keep :=
  match goal with
  | |- context [cleanup ?env ?vp ?ap ?op ?st] =>
      let d := fresh "d" in
      let evs := fresh "evs" in
      let Hev := fresh "Hev" in
      let Hsub := fresh "Hsub" in
      let Hgone := fresh "Hgone" in
      destruct (cleanup_run env vp ap op st) as (d & evs & -> & Hev & Hsub & Hgone)
  | |- context [cleanup_on_error ?env ?st] =>
      let d := fresh "d" in
      let evs := fresh "evs" in
      let Hev := fresh "Hev" in
      let Hsub := fresh "Hsub" in
      let Hgone := fresh "Hgone" in
      destruct (cleanup_on_error_run env st) as (d & evs & -> & Hev & Hsub & Hgone)
  end.

Ltac run_part :=
  match goal with
  | |- context [cleanup ?env ?vp ?ap ?op ?st] =>
      let d := fresh "d" in
      let evs := fresh "evs" in
      let Hev := fresh "Hev" in
      destruct (cleanup_run env vp ap op st) as (d & evs & -> & Hev & _ & _)
  | |- context [cleanup_on_error ?env ?st] =>
      let d := fresh "d" in
      let evs := fresh "evs" in
      let Hev := fresh "Hev" in
      destruct (cleanup_on_error_run env st) as (d & evs & -> & Hev & _ & _)
  | |- context [on_progresses ?env ?ps ?st] =>
      let evs := fresh "pevs" in
      let Hev := fresh "Hpev" in
      destruct (on_progresses_run env ps st) as (evs & -> & Hev)
  end.

(** A case split on what the outside answers. *)
Ltac branch :=
  match goal with
  | |- context [match env_axios_get ?env ?u ?c with _ => _ end] =>
      destruct (env_axios_get env u c) as [?e|?stream] eqn:?Hget
  | |- context [match env_pipe ?env ?p ?s with _ => _ end] =>
      destruct (env_pipe env p s) as [|?e ?written|?written] eqn:?Hpipe
  | |- context [match started ?r with _ => _ end] =>
      destruct (started r) as [?line|] eqn:?Hstart
  | |- context [match result ?r with _ => _ end] =>
      destruct (result r) as [?written|?msg ?stderr ?written|] eqn:?Hresult
  | |- context [match env_readFile ?env ?p with _ => _ end] =>
      destruct (env_readFile env p) as [?e|] eqn:?Hread
  | |- context [bool_decide (is_Some ?o)] =>
      destruct (bool_decide_reflect (is_Some o)) as [[?bytes ?Hsome]|?Hnone]
  | |- context [match ?d !! ?p with _ => _ end] =>
      first [ rewrite lookup_insert_eq
            | match goal with H : d !! p = _ |- _ => rewrite H end
            | destruct (d !! p) as [?bytes|] eqn:?Hlook ]
  end.

Ltac steps := cbn; repeat (first [run_part | branch]; cbn).
Ltac steps_keep := cbn; repeat (first [run_part_keep | run_part | branch]; cbn).

(** Both fields present: the three temp paths get the names [vp], [ap]
    and [op]. *)
Ltac name_paths env :=
  generalize (temp_file "/tmp" "video_" (env_now env 1)
                (JsString.substring_from 7 (random_toString36 env)) ".mp4");
  generalize (temp_file "/tmp" "audio_" (env_now env 1)
                (JsString.substring_from 7 (random_toString36 env)) ".mp3");
  generalize (temp_file "/tmp" "output_" (env_now env 1)
                (JsString.substring_from 7 (random_toString36 env)) ".mp4");
  intros ?op ?ap ?vp.

Ltac with_paths env := cbn; name_paths env.

(** The same, keeping what [facts] says of the three paths. *)
Ltac with_paths_and env facts :=
  cbn;
  generalize
    (facts (env_now env 1) (JsString.substring_from 7 (random_toString36 env)));
  cbv zeta;
  name_paths env;
  intros ?Hpaths.

Lemma cleanup_event_in (evs : list Event) (e : Event) :
  forallb is_cleanup_event evs = true -> In e evs -> is_cleanup_event e = true.
Proof. intros H. now apply forallb_forall. Qed.

Lemma progress_event_in (evs : list Event) (e : Event) :
  forallb is_progress_event evs = true -> In e evs -> is_progress_event e = true.
Proof. intros H. now apply forallb_forall. Qed.

(** All the ways an event can be in a trace; cases that cannot be are
    closed as soon as they show. *)
Ltac in_cases :=
  repeat match goal with
    | H : False |- _ => destruct H
    | H : false = true |- _ => discriminate H
    | H : @eq Event _ _ |- _ =>
        first [discriminate H | injection H; clear H; intros; subst]
    | H : @eq string _ _ |- _ =>
        first [discriminate H | cbv [String.append] in H; discriminate H]
    | H : Some _ = None |- _ => discriminate H
    | H : None = Some _ |- _ => discriminate H
    | Hev : forallb is_cleanup_event ?evs = true, H : In _ ?evs |- _ =>
        apply (cleanup_event_in _ _ Hev) in H; cbn in H
    | Hev : forallb is_progress_event ?evs = true, H : In _ ?evs |- _ =>
        apply (progress_event_in _ _ Hev) in H; cbn in H
    | H : In _ [] |- _ => destruct H
    | H : _ \/ _ |- _ => destruct H as [H|H]
    | H : In _ (_ ++ _) |- _ => apply in_app_or in H
    | H : In _ (_ :: _) |- _ => destruct H as [H|H]
    end.

(** A hypothesis [H] that an event is in a trace where it cannot be. *)
Ltac refute H :=
  solve [ repeat match goal with
            | H' : In _ _ |- _ =>
                lazymatch H' with H => fail | _ => clear H' end
            end;
          cbn in H; in_cases ].

(** An event that is in a trace. *)
Ltac find_in :=
  first [ left; reflexivity
        | right; find_in
        | apply in_or_app; left; find_in
        | apply in_or_app; right; find_in ].

Lemma axios_calls_app (l1 l2 : list Event) :
  axios_calls (l1 ++ l2) = (axios_calls l1 ++ axios_calls l2)%list.
Proof. apply flat_map_app. Qed.

Lemma ffmpeg_runs_app (l1 l2 : list Event) :
  ffmpeg_runs (l1 ++ l2) = (ffmpeg_runs l1 ++ ffmpeg_runs l2)%list.
Proof. apply flat_map_app. Qed.

Lemma flat_map_none {A B} (f : A -> list B) (l : list A) :
  (forall x, In x l -> f x = []) -> flat_map f l = [].
Proof.
  induction l as [|x l IH]; intros H; [reflexivity|].
  cbn [flat_map]. rewrite (H x) by now left.
  apply IH. intros y Hy. apply H. now right.
Qed.

Lemma axios_calls_cleanup (evs : list Event) :
  forallb is_cleanup_event evs = true -> axios_calls evs = [].
Proof.
  intros Hev. apply flat_map_none. intros e He.
  apply (cleanup_event_in _ _ Hev) in He. now destruct e.
Qed.

Lemma axios_calls_progress (evs : list Event) :
  forallb is_progress_event evs = true -> axios_calls evs = [].
Proof.
  intros Hev. apply flat_map_none. intros e He.
  apply (progress_event_in _ _ Hev) in He. now destruct e.
Qed.

Lemma ffmpeg_runs_cleanup (evs : list Event) :
  forallb is_cleanup_event evs = true -> ffmpeg_runs evs = [].
Proof.
  intros Hev. apply flat_map_none. intros e He.
  apply (cleanup_event_in _ _ Hev) in He. now destruct e.
Qed.

Lemma ffmpeg_runs_progress (evs : list Event) :
  forallb is_progress_event evs = true -> ffmpeg_runs evs = [].
Proof.
  intros Hev. apply flat_map_none. intros e He.
  apply (progress_event_in _ _ Hev) in He. now destruct e.
Qed.

(** The calls of a trace made of known events and of cleanup and
    progress segments. *)
Ltac calls :=
  repeat first
    [ rewrite axios_calls_app | rewrite ffmpeg_runs_app
    | rewrite axios_calls_cleanup by assumption
    | rewrite axios_calls_progress by assumption
    | rewrite ffmpeg_runs_cleanup by assumption
    | rewrite ffmpeg_runs_progress by assumption
    | progress cbn [axios_calls ffmpeg_runs flat_map app] ].

End Exec.

(** ** Properties of the request lifecycle *)

Module Claims.
Import Exec.

Lemma temp_file_nonempty (ts : Z) (rid : string) :
  temp_file "/tmp" "video_" ts rid ".mp4" <> EmptyString /\
  temp_file "/tmp" "audio_" ts rid ".mp3" <> EmptyString /\
  temp_file "/tmp" "output_" ts rid ".mp4" <> EmptyString.
Proof. repeat split; apply PathFacts.join_nonempty. Qed.

(** The answer does not depend on what [fs.unlinkSync] does. *)
Lemma unlink_never_surfaces (env : Env) (req : Request)
    (files : gmap string (list byte)) (u : string -> option Error) :
  sent (serve (with_unlink u env) req files).2 = sent (serve env req files).2.
Proof.
  destruct (serve env req files) as [o st] eqn:Hrun.
  destruct (serve (with_unlink u env) req files) as [o' st'] eqn:Hrun'.
  cbn [snd]. revert Hrun Hrun'.
  unfold_handler.
  destruct (negb _ || negb _) eqn:Hvalid.
  - cbn. intros [= <- <-] [= <- <-]. reflexivity.
  - cbn.
    change (random_toString36 (with_unlink u env)) with (random_toString36 env).
    with_paths env.
    steps; intros [= <- <-]; steps; intros [= <- <-]; reflexivity.
Qed.

(** C1 (amended). Deleting the temp files is best effort. When no deletion
    fails, none of the three temp files is on the disk once the answer has
    been sent, whether the request succeeded or failed in any phase. A
    deletion that fails is only logged: the answer is the same whatever
    [fs.unlinkSync] does. *)
Theorem cleanup_best_effort (env : Env) (req : Request)
    (files : gmap string (list byte)) :
  let st := (serve env req files).2 in
  (forall u, sent (serve (with_unlink u env) req files).2 = sent st) /\
  (no_unlink_failure env -> is_Some (sent st) -> temps_gone st).
Proof.
  cbv zeta. split; [intros u; apply unlink_never_surfaces|].
  intros Hno.
  destruct (serve env req files) as [o st] eqn:Hrun. cbn [snd]. revert Hrun.
  unfold_handler.
  destruct (negb _ || negb _) eqn:Hvalid.
  - cbn. intros [= <- <-] _ p. cbn. intros [H|[H|H]]; discriminate H.
  - with_paths_and env temp_file_nonempty.
    destruct Hpaths as (Hvp & Hap & Hop).
    steps_keep; intros [= <- <-]; cbn; intros Hsent p Hp;
      try (destruct Hsent as [? Hsent]; discriminate Hsent);
      cbn in Hgone; specialize (Hgone Hno).
    all: try (destruct Hgone as (Hg1 & Hg2 & Hg3);
              destruct Hp as [[= <-]|[[= <-]|[= <-]]]; assumption).
    all: destruct Hp as [[= <-]|[[= <-]|[= <-]]]; apply Hgone; auto.
Qed.

Lemma falsy_of_missing (req : Request) :
  field req "videoUrl" = VUndefined \/ field req "audioUrl" = VUndefined ->
  negb (truthy (field req "videoUrl")) || negb (truthy (field req "audioUrl")) = true.
Proof.
  intros [-> | ->]; cbn [truthy negb orb]; [reflexivity|].
  apply orb_true_r.
Qed.

(** C2. A request in which [videoUrl] or [audioUrl] is missing is answered
    at once with HTTP 400 and the body
    [{error: "Missing required fields", required: ["videoUrl", "audioUrl"]}];
    nothing else happens: the run only logs and answers, no temp path is
    assigned, the disk is untouched and neither a download nor ffmpeg is
    started. *)
Theorem missing_field_rejected (env : Env) (req : Request)
    (files : gmap string (list byte)) :
  field req "videoUrl" = VUndefined \/ field req "audioUrl" = VUndefined ->
  let rejection :=
    mkResponse 400
      (VObj [ ("error", VStr "Missing required fields");
              ("required", VArr [VStr "videoUrl"; VStr "audioUrl"]) ]) in
  serve env req files =
    (Ret tt,
     mkState files
       [ EvLog [VStr "=== Merge Request Received ==="];
         EvLog [VStr "Video URL:"; field req "videoUrl"];
         EvLog [VStr "Audio URL:"; field req "audioUrl"];
         EvSend rejection ]
       0 None None None 400 (Some rejection)).
Proof.
  intros Hmissing. apply falsy_of_missing in Hmissing.
  unfold_handler. rewrite Hmissing. reflexivity.
Qed.

(** When every awaited promise settles, the request is answered. *)
Lemma answered_when_settled (env : Env) (req : Request)
    (files : gmap string (list byte)) :
  settles env ->
  (serve env req files).1 = Ret tt /\ is_Some (sent (serve env req files).2).
Proof.
  intros [Hpipes Hruns].
  destruct (serve env req files) as [o st] eqn:Hrun. cbn [fst snd]. revert Hrun.
  unfold_handler.
  destruct (negb _ || negb _) eqn:Hvalid.
  - cbn. intros [= <- <-]. cbn. eauto.
  - with_paths env.
    steps; intros [= <- <-]; cbn; eauto.
    all: exfalso; first [ eapply Hpipes; eassumption | eapply Hruns; eassumption ].
Qed.

(** C3. The answer of a request is all or nothing and has one of the
    three shapes: HTTP 200 with
    [{success: true, base64, stats: {inputVideoSize, inputAudioSize,
    outputSize, processingTime, outputSizeMB}, message}], and then the
    whole pipeline ran; or else HTTP 400 with [{error, required}] or
    HTTP 500 with [{success: false, error, details}], and then it did
    not. A request whose awaited promises all settle is answered. *)
Theorem response_shapes (env : Env) (req : Request)
    (files : gmap string (list byte)) :
  let st := (serve env req files).2 in
  (settles env -> is_Some (sent st)) /\
  (forall r, sent st = Some r ->
     (is_success r /\ completed st) \/
     ((is_rejection r \/ is_failure r) /\ ~ completed st)).
Proof.
  cbv zeta. split; [intros H; now apply answered_when_settled|].
  destruct (serve env req files) as [o st] eqn:Hrun. cbn [snd]. revert Hrun.
  unfold_handler.
  destruct (negb _ || negb _) eqn:Hvalid.
  - cbn. intros [= <- <-] r. cbn. intros [= <-]. right. split.
    + left. split; [reflexivity|]. eexists _, _. reflexivity.
    + intros (? & ? & ? & ? & H & _). discriminate H.
  - with_paths env.
    steps; intros [= <- <-] r; cbn; intros [= <-].
    all: try (right; split;
              [ right; split; [reflexivity|]; eexists _, _; reflexivity
              | intros (vp' & ap' & op' & b' & _ & _ & _ & H1 & H2 & H3 & H4);
                first [refute H1 | refute H3 | refute H4] ]).
    all: left; split;
      [ split; [reflexivity|]; eexists _, _, _, _, _, _, _; reflexivity
      | exists vp, ap, op; eexists; cbn;
        repeat split; try reflexivity; find_in ].
Qed.

(** X13. When [axios.get] itself rejects, for the video or for the audio,
    the handler resolves and the request is answered with HTTP 500
    carrying the message and the stack of that very error, passed through
    as they are, and ffmpeg is never run. (A response stream that breaks
    off after [axios.get] has resolved is not such a rejection.) *)
Theorem fetch_failure_is_terminal (env : Env) (req : Request)
    (files : gmap string (list byte)) (e : Error) :
  let run := serve env req files in
  fetch_rejected env (trace run.2) e ->
  run.1 = Ret tt /\
  sent run.2 = Some (mkResponse 500 (failure_body e)) /\
  ffmpeg_runs (trace run.2) = [].
Proof.
  cbv zeta.
  destruct (serve env req files) as [o st] eqn:Hrun. cbn [fst snd]. revert Hrun.
  unfold_handler.
  destruct (negb _ || negb _) eqn:Hvalid.
  - cbn. intros [= <- <-] (url & cfg & Hin & Hrej). refute Hin.
  - with_paths env.
    steps; intros [= <- <-] (url & cfg & Hin & Hrej); cbn in Hin; in_cases;
      try congruence.
    all: cbn; repeat split; [congruence | calls; reflexivity].
Qed.

(** C5. A request that reaches the combine phase runs ffmpeg exactly once,
    on the video file and the audio file in this order, writing to the
    output path, with the options that copy the video stream, re-encode
    the audio to AAC at 192k, take the video of the first input and the
    audio of the second, stop at the shorter input, move the index to the
    front for progressive playback and overwrite an existing output. *)
Theorem ffmpeg_invoked_once (env : Env) (req : Request)
    (files : gmap string (list byte)) :
  let st := (serve env req files).2 in
  reaches_combine (trace st) ->
  exists vp ap op,
    videoPath st = Some vp /\ audioPath st = Some ap /\
    outputPath st = Some op /\
    ffmpeg_runs (trace st) =
      [ {| inputs := [vp; ap];
           outputOptions :=
             [ "-c:v copy"; "-c:a aac"; "-b:a 192k"; "-map 0:v:0";
               "-map 1:a:0"; "-shortest"; "-movflags +faststart"; "-y" ];
           output := op |} ].
Proof.
  cbv zeta. unfold reaches_combine.
  destruct (serve env req files) as [o st] eqn:Hrun. cbn [snd]. revert Hrun.
  unfold_handler.
  destruct (negb _ || negb _) eqn:Hvalid.
  - cbn. intros [= <- <-] Hreach. refute Hreach.
  - with_paths env.
    steps; intros [= <- <-] Hreach;
      first [ refute Hreach
            | exists vp, ap, op; cbn; repeat split; calls; reflexivity ].
Qed.

(** C6. Each stream is fetched under limits of its own. A request that
    passes validation always fetches the video, first, with a timeout of
    60 s and a ceiling of 50 MiB; once the video has been written out, and
    only then, it fetches the audio, with 30 s and 10 MiB; it makes no
    other fetch, and it opens a write stream only at the path of a stream
    that was fetched so. Both limits of the video are strictly larger
    than those of the audio. *)
Theorem download_limits (env : Env) (req : Request)
    (files : gmap string (list byte)) :
  truthy (field req "videoUrl") = true ->
  truthy (field req "audioUrl") = true ->
  let st := (serve env req files).2 in
  let video_fetch :=
    (field req "videoUrl",
     {| responseType := "stream"; timeout := 60000;
        maxContentLength := 50 * 1024 * 1024 |}) in
  let audio_fetch :=
    (field req "audioUrl",
     {| responseType := "stream"; timeout := 30000;
        maxContentLength := 10 * 1024 * 1024 |}) in
  exists vp ap,
    videoPath st = Some vp /\ audioPath st = Some ap /\
    (axios_calls (trace st) = [video_fetch] \/
     axios_calls (trace st) = [video_fetch; audio_fetch]) /\
    (In (EvWriterFinish vp) (trace st) <->
     axios_calls (trace st) = [video_fetch; audio_fetch]) /\
    (forall p, In (EvCreateWriteStream p) (trace st) ->
       (p = vp /\ exists stream,
          env_axios_get env (fst video_fetch) (snd video_fetch) = inr stream) \/
       (p = ap /\ exists stream,
          env_axios_get env (fst audio_fetch) (snd audio_fetch) = inr stream)) /\
    (forall video audio, axios_calls (trace st) = [video; audio] ->
       timeout (snd audio) < timeout (snd video) /\
       maxContentLength (snd audio) < maxContentLength (snd video)).
Proof.
  intros Hv Ha. cbv zeta.
  destruct (serve env req files) as [o st] eqn:Hrun. cbn [snd]. revert Hrun.
  unfold_handler. rewrite Hv, Ha. cbn [negb orb].
  with_paths env.
  steps; intros [= <- <-]; exists vp, ap; cbn;
    (split; [reflexivity|]); (split; [reflexivity|]).
  all: split; [calls; first [left; reflexivity | right; reflexivity]|].
  all: split;
    [ split;
      [ intros Hin; first [ refute Hin | calls; reflexivity ]
      | intros Hcalls; first [ find_in | revert Hcalls; calls; discriminate ] ]
    | ].
  all: split;
    [ intros p Hin; cbn in Hin; in_cases;
      first [ left; split; [reflexivity|]; eexists; cbn; first [reflexivity | eassumption]
            | right; split; [reflexivity|]; eexists; cbn; first [reflexivity | eassumption] ]
    | intros video audio; calls; intros Hcalls;
      first [ discriminate Hcalls
            | injection Hcalls as <- <-; cbn; lia ] ].
Qed.

Lemma check_after_end_skip (evs l : list Event) :
  (forall e, In e evs -> e <> EvFfmpegEnd) ->
  check_after_end (evs ++ l) = check_after_end l.
Proof.
  induction evs as [|e evs IH]; intros H; [reflexivity|].
  cbn [app check_after_end].
  assert (He : e <> EvFfmpegEnd) by (apply H; now left).
  rewrite IH by (intros e' He'; apply H; now right).
  destruct e; try reflexivity. contradiction.
Qed.

Lemma check_after_end_cleanup (evs l : list Event) :
  forallb is_cleanup_event evs = true ->
  check_after_end (evs ++ l) = check_after_end l.
Proof.
  intros Hev. apply check_after_end_skip. intros e He ->.
  apply (cleanup_event_in _ _ Hev) in He. discriminate He.
Qed.

Lemma check_after_end_progress (evs l : list Event) :
  forallb is_progress_event evs = true ->
  check_after_end (evs ++ l) = check_after_end l.
Proof.
  intros Hev. apply check_after_end_skip. intros e He ->.
  apply (progress_event_in _ _ Hev) in He. discriminate He.
Qed.

Lemma check_after_end_progress_only (evs : list Event) :
  forallb is_progress_event evs = true -> check_after_end evs = None.
Proof.
  intros Hev. rewrite <- (app_nil_r evs).
  now rewrite check_after_end_progress.
Qed.

(** C7. When ffmpeg reports success and the check that follows finds no
    output file, the request is answered with HTTP 500 and the error
    [Output file was not created], not with a success, and no file is
    read or encoded. *)
Theorem missing_output_is_failure (env : Env) (req : Request)
    (files : gmap string (list byte)) :
  let run := serve env req files in
  check_after_end (trace run.2) = Some false ->
  run.1 = Ret tt /\
  sent run.2 =
    Some (mkResponse 500
            (VObj [ ("success", VBool false);
                    ("error", VStr "Output file was not created");
                    ("details",
                      VStr (env_stack env "Output file was not created")) ])) /\
  forall p content, ~ In (EvReadFile p content) (trace run.2).
Proof.
  cbv zeta.
  destruct (serve env req files) as [o st] eqn:Hrun. cbn [fst snd]. revert Hrun.
  unfold_handler.
  destruct (negb _ || negb _) eqn:Hvalid.
  - cbn. intros [= <- <-] Hcheck. discriminate Hcheck.
  - with_paths env.
    steps; intros [= <- <-] Hcheck; cbn in Hcheck;
      rewrite <- ?app_assoc in Hcheck; cbn in Hcheck;
      repeat (first [ rewrite check_after_end_progress in Hcheck by assumption
                    | rewrite check_after_end_cleanup in Hcheck by assumption
                    | rewrite check_after_end_progress_only in Hcheck by assumption ];
              cbn in Hcheck);
      try discriminate Hcheck.
    all: split; [reflexivity|split; [reflexivity|]];
      intros p content Hin; refute Hin.
Qed.

(** C8. The [base64] string of a success answer decodes to exactly the
    bytes of the merged output file: the content of the output path on
    the disk that ffmpeg left behind, having run on the two downloads
    (what ffmpeg wrote there, when it wrote), which is also what was read.
    Decoding undoes the encoding. *)
Theorem base64_round_trip (env : Env) (req : Request)
    (files : gmap string (list byte)) :
  let st := (serve env req files).2 in
  forall r, sent st = Some r -> status r = 200 ->
    exists text bytes vp ap op video audio written,
      member "base64" (json r) = Some (VStr text) /\
      videoPath st = Some vp /\ audioPath st = Some ap /\
      outputPath st = Some op /\
      env_axios_get env (field req "videoUrl") video_config = inr video /\
      env_axios_get env (field req "audioUrl") audio_config = inr audio /\
      let downloaded := <[ap := audio]> (<[vp := video]> files) in
      result (env_ffmpeg env (merge_command vp ap op) downloaded)
        = FfmpegEnd written /\
      leave op written downloaded !! op = Some bytes /\
      (forall merged, written = Some merged -> bytes = merged) /\
      In (EvReadFile op (Some bytes)) (trace st) /\
      Base64.decode text = Some bytes.
Proof.
  cbv zeta.
  destruct (serve env req files) as [o st] eqn:Hrun. cbn [snd]. revert Hrun.
  unfold_handler.
  destruct (negb _ || negb _) eqn:Hvalid.
  - cbn. intros [= <- <-] r. cbn. intros [= <-] Hstatus. discriminate Hstatus.
  - with_paths env.
    steps; intros [= <- <-] r; cbn; intros [= <-] Hstatus;
      try discriminate Hstatus.
    all: eexists _, _, vp, ap, op, _, _, _; cbn.
    all: split; [reflexivity|].
    all: do 3 (split; [reflexivity|]).
    all: do 2 (split; [reflexivity|]).
    all: split; [eassumption|].
    all: split; [eassumption|].
    all: split;
      [ intros merged ->; unfold leave in *;
        match goal with
        | H : <[_ := _]> _ !! _ = Some _ |- _ =>
            rewrite lookup_insert_eq in H; congruence
        end
      | ].
    all: split; [find_in | apply Base64Round.decode_encode].
Qed.

Lemma temp_files_distinct_of (env : Env) (ts : Z) :
  let rid := JsString.substring_from 7 (random_toString36 env) in
  let v := temp_file "/tmp" "video_" ts rid ".mp4" in
  let a := temp_file "/tmp" "audio_" ts rid ".mp3" in
  let o := temp_file "/tmp" "output_" ts rid ".mp4" in
  v <> a /\ v <> o /\ a <> o.
Proof.
  apply TempFacts.temp_files_distinct, PathFacts.slash_free_substring,
    TempFacts.slash_free_random.
Qed.

(** C9. A request that passes validation names three temp files, for the
    video, the audio and the output, that are pairwise different paths. *)
Theorem temp_paths_distinct (env : Env) (req : Request)
    (files : gmap string (list byte)) :
  truthy (field req "videoUrl") = true ->
  truthy (field req "audioUrl") = true ->
  let st := (serve env req files).2 in
  exists vp ap op,
    videoPath st = Some vp /\ audioPath st = Some ap /\
    outputPath st = Some op /\
    vp <> ap /\ vp <> op /\ ap <> op.
Proof.
  intros Hv Ha. cbv zeta.
  destruct (serve env req files) as [o st] eqn:Hrun. cbn [snd]. revert Hrun.
  unfold_handler. rewrite Hv, Ha. cbn [negb orb].
  with_paths_and env (fun ts (_ : string) => temp_files_distinct_of env ts).
  steps; intros [= <- <-]; exists vp, ap, op; cbn; auto.
Qed.

Lemma precedes_cons_hit (a : Event) (Q : Event -> Prop) (tr : list Event) :
  ~ Q a -> precedes a Q (a :: tr).
Proof.
  intros Hna pre e post Heq HQ.
  destruct pre as [|x pre]; cbn in Heq; injection Heq as <- _.
  - contradiction.
  - now left.
Qed.

Lemma precedes_cons_skip (a e : Event) (Q : Event -> Prop) (tr : list Event) :
  ~ Q e -> precedes a Q tr -> precedes a Q (e :: tr).
Proof.
  intros Hne Htr pre e' post Heq HQ.
  destruct pre as [|x pre]; cbn in Heq; injection Heq as <- Heq.
  - contradiction.
  - right. exact (Htr _ _ _ Heq HQ).
Qed.

Lemma precedes_none (a : Event) (Q : Event -> Prop) (tr : list Event) :
  (forall e, In e tr -> ~ Q e) -> precedes a Q tr.
Proof.
  intros Hall pre e post -> HQ.
  destruct (Hall e (in_elt _ _ _) HQ).
Qed.

Ltac not_such :=
  let H := fresh in
  intros [? H];
  first [ discriminate H
        | injection H; intros; unfold video_config, audio_config in *;
          discriminate ].

Ltac ordered :=
  repeat first [ apply precedes_cons_hit; not_such
               | apply precedes_cons_skip; [not_such|] ];
  try (apply precedes_none;
       let Hin := fresh in intros ? Hin [? ->]; refute Hin).

(** C10. The phases of a request run one after the other: every fetch of
    the audio comes after the video file has been written out, and every
    run of ffmpeg comes after both files have been written out. *)
Theorem downloads_are_sequential (env : Env) (req : Request)
    (files : gmap string (list byte)) :
  let st := (serve env req files).2 in
  forall vp ap, videoPath st = Some vp -> audioPath st = Some ap ->
    precedes (EvWriterFinish vp) is_audio_fetch (trace st) /\
    precedes (EvWriterFinish vp) is_ffmpeg_run (trace st) /\
    precedes (EvWriterFinish ap) is_ffmpeg_run (trace st).
Proof.
  cbv zeta.
  destruct (serve env req files) as [o st] eqn:Hrun. cbn [snd]. revert Hrun.
  unfold_handler.
  destruct (negb _ || negb _) eqn:Hvalid.
  - cbn. intros [= <- <-] vp ap. cbn. intros Hvp. discriminate Hvp.
  - with_paths env.
    steps; intros [= <- <-] vp' ap'; cbn; intros [= <-] [= <-];
      repeat split; ordered.
Qed.
End Claims.

(** ** Concrete runs *)

Module Scenarios.
Import Exec Claims Demo.

(** The happy run answers with the encoded output and leaves nothing. *)
Example happy_run :
  let run := serve Demo.happy Demo.request ∅ in
  run.1 = Ret tt /\
  disk run.2 = ∅ /\
  videoPath run.2 = Some video_file /\
  sent run.2 =
    Some (mkResponse 200
            (VObj [ ("success", VBool true);
                    ("base64", VStr "TWFu");
                    ("stats", VObj [ ("inputVideoSize", VNum 11);
                                     ("inputAudioSize", VNum 5);
                                     ("outputSize", VNum 3);
                                     ("processingTime", VNum (5 # 2));
                                     ("outputSizeMB", VStr "0.00") ]);
                    ("message", VStr "Video and audio merged successfully") ])).
Proof. vm_compute. repeat split. Qed.

(** C1, as stated, fails: when the files cannot be deleted the request is
    still answered with a success, and the three temp files stay. *)
Lemma undeletable_files_remain :
  let st := (serve Demo.sticky Demo.request ∅).2 in
  (exists r, sent st = Some r /\ status r = 200) /\
  videoPath st = Some video_file /\
  audioPath st = Some audio_file /\
  outputPath st = Some output_file /\
  is_Some (disk st !! video_file) /\
  is_Some (disk st !! audio_file) /\
  is_Some (disk st !! output_file) /\
  ~ temps_gone st.
Proof.
  cbv zeta.
  assert (Hv : videoPath (serve Demo.sticky Demo.request ∅).2 = Some video_file)
    by (vm_compute; reflexivity).
  assert (Hd : is_Some (disk (serve Demo.sticky Demo.request ∅).2 !! video_file))
    by (vm_compute; eauto).
  split; [eexists; split; vm_compute; reflexivity|].
  repeat split; try (vm_compute; reflexivity); try (vm_compute; eauto).
  intros Hgone. destruct Hd as [bytes Hd].
  pose proof (eq_trans (eq_sym (Hgone video_file (or_introl Hv))) Hd) as Habsurd.
  discriminate Habsurd.
Qed.

(** The three deletions share one [try]: when the first one throws, the
    two after it are not attempted. *)
Example first_failure_ends_cleanup :
  let st := (serve Demo.stuck_video Demo.request ∅).2 in
  (exists r, sent st = Some r /\ status r = 200) /\
  unlinks (trace st) = [video_file] /\
  is_Some (disk st !! audio_file) /\
  is_Some (disk st !! output_file).
Proof.
  cbv zeta. split; [eexists; split; vm_compute; reflexivity|].
  split; [vm_compute; reflexivity|].
  split; vm_compute; eauto.
Qed.

(** C1, amended, on the happy run: the answer is the one of the run in
    which no file can be deleted, and the temp files are gone. *)
Lemma cleanup_best_effort_witness :
  let st := (serve Demo.happy Demo.request ∅).2 in
  sent (serve Demo.sticky Demo.request ∅).2 = sent st /\ temps_gone st.
Proof.
  cbv zeta.
  destruct (cleanup_best_effort Demo.happy Demo.request ∅) as [Hsame Hgone].
  split.
  - exact (Hsame (fun _ => Some Demo.eperm)).
  - apply Hgone.
    + intros p. reflexivity.
    + vm_compute. eauto.
Defined.

(** C2 on the request without [audioUrl]. *)
Lemma missing_field_rejected_witness :
  field Demo.request_without_audio "audioUrl" = VUndefined /\
  sent (serve Demo.happy Demo.request_without_audio ∅).2 =
    Some (mkResponse 400
            (VObj [ ("error", VStr "Missing required fields");
                    ("required", VArr [VStr "videoUrl"; VStr "audioUrl"]) ])) /\
  trace (serve Demo.happy Demo.request_without_audio ∅).2 =
    [ EvLog [VStr "=== Merge Request Received ==="];
      EvLog [VStr "Video URL:"; VStr Demo.video_url];
      EvLog [VStr "Audio URL:"; VUndefined];
      EvSend (mkResponse 400
                (VObj [ ("error", VStr "Missing required fields");
                        ("required", VArr [VStr "videoUrl"; VStr "audioUrl"]) ])) ].
Proof.
  assert (H : field Demo.request_without_audio "audioUrl" = VUndefined)
    by (vm_compute; reflexivity).
  split; [exact H|].
  rewrite (missing_field_rejected Demo.happy Demo.request_without_audio ∅
             (or_intror H)).
  split; vm_compute; reflexivity.
Defined.

(** Nothing stays pending in the happy world. *)
Lemma settles_happy : settles Demo.happy.
Proof. split; intros; discriminate. Qed.

(** C3 on the happy run. *)
Lemma response_shapes_witness :
  let st := (serve Demo.happy Demo.request ∅).2 in
  is_Some (sent st) /\
  exists r, sent st = Some r /\
    ((is_success r /\ completed st) \/
     ((is_rejection r \/ is_failure r) /\ ~ completed st)).
Proof.
  cbv zeta.
  destruct (response_shapes Demo.happy Demo.request ∅) as [Hsent Hshape].
  split; [exact (Hsent settles_happy)|].
  eexists. split; [vm_compute; reflexivity|].
  apply Hshape. vm_compute. reflexivity.
Defined.

(** C4. The claim fails on the code. When the response stream of the
    video breaks off after [axios.get] has resolved, its writer emits
    neither [finish] nor [error]: the awaited promise never settles and
    the request is never answered. No failure is reported, nothing is
    cleaned up, and the part of the video that arrived stays on the
    disk. *)
Lemma broken_download_never_answers :
  let run := serve Demo.cut_video Demo.request ∅ in
  env_axios_get Demo.cut_video (VStr Demo.video_url) video_config
    = inr (Demo.bytes_of "VIDEO-BYTES") /\
  env_pipe Demo.cut_video video_file (Demo.bytes_of "VIDEO-BYTES")
    = PipePending (Some (Demo.bytes_of "VIDEO")) /\
  run.1 = Pending /\
  sent run.2 = None /\
  sends (trace run.2) = [] /\
  axios_calls (trace run.2) = [ (VStr Demo.video_url, video_config) ] /\
  ffmpeg_runs (trace run.2) = [] /\
  unlinks (trace run.2) = [] /\
  disk run.2 !! video_file = Some (Demo.bytes_of "VIDEO").
Proof. vm_compute. repeat split. Qed.

(** A writer that does report its error is answered: the sibling case of
    the one above. *)
Example writer_error_is_answered :
  let run := serve Demo.disk_full Demo.request ∅ in
  run.1 = Ret tt /\
  sent run.2 = Some (mkResponse 500 (failure_body Demo.enospc)).
Proof. vm_compute. repeat split. Qed.

(** A 404 on the video and a 404 on the audio are both answered with the
    error as axios made it. *)
Example rejected_fetches :
  let a := (serve Demo.video_down Demo.request ∅).2 in
  let b := (serve Demo.audio_down Demo.request ∅).2 in
  axios_calls (trace a) = [ (VStr Demo.video_url, video_config) ] /\
  sent a = Some (mkResponse 500 (failure_body (Demo.not_found_at "63:39"))) /\
  axios_calls (trace b) = [ (VStr Demo.video_url, video_config);
                            (VStr Demo.audio_url, audio_config) ] /\
  sent b = Some (mkResponse 500 (failure_body (Demo.not_found_at "82:39"))).
Proof. vm_compute. repeat split. Qed.

(** X13 on the run whose audio URL answers 404. *)
Lemma fetch_failure_is_terminal_witness :
  let run := serve Demo.audio_down Demo.request ∅ in
  fetch_rejected Demo.audio_down (trace run.2) (Demo.not_found_at "82:39") /\
  run.1 = Ret tt /\
  sent run.2
    = Some (mkResponse 500 (failure_body (Demo.not_found_at "82:39"))) /\
  ffmpeg_runs (trace run.2) = [].
Proof.
  cbv zeta.
  assert (H : fetch_rejected Demo.audio_down
                (trace (serve Demo.audio_down Demo.request ∅).2)
                (Demo.not_found_at "82:39")).
  { exists (VStr Demo.audio_url), audio_config. split.
    - vm_compute. do 11 right. left. reflexivity.
    - reflexivity. }
  split; [exact H|].
  exact (fetch_failure_is_terminal Demo.audio_down Demo.request ∅ _ H).
Defined.

(** C5 on the happy run. *)
Lemma ffmpeg_invoked_once_witness :
  let st := (serve Demo.happy Demo.request ∅).2 in
  reaches_combine (trace st) /\
  exists vp ap op,
    videoPath st = Some vp /\ audioPath st = Some ap /\
    outputPath st = Some op /\
    ffmpeg_runs (trace st) =
      [ {| inputs := [vp; ap];
           outputOptions :=
             [ "-c:v copy"; "-c:a aac"; "-b:a 192k"; "-map 0:v:0";
               "-map 1:a:0"; "-shortest"; "-movflags +faststart"; "-y" ];
           output := op |} ].
Proof.
  cbv zeta.
  assert (H : reaches_combine (trace (serve Demo.happy Demo.request ∅).2)).
  { unfold reaches_combine. vm_compute. do 16 right. left. reflexivity. }
  split; [exact H|].
  exact (ffmpeg_invoked_once Demo.happy Demo.request ∅ H).
Defined.

(** C6 on the happy run, which makes both fetches. *)
Lemma download_limits_witness :
  let st := (serve Demo.happy Demo.request ∅).2 in
  let video_fetch :=
    (field Demo.request "videoUrl",
     {| responseType := "stream"; timeout := 60000;
        maxContentLength := 50 * 1024 * 1024 |}) in
  let audio_fetch :=
    (field Demo.request "audioUrl",
     {| responseType := "stream"; timeout := 30000;
        maxContentLength := 10 * 1024 * 1024 |}) in
  truthy (field Demo.request "videoUrl") = true /\
  truthy (field Demo.request "audioUrl") = true /\
  axios_calls (trace st) = [video_fetch; audio_fetch] /\
  exists vp ap,
    videoPath st = Some vp /\ audioPath st = Some ap /\
    (axios_calls (trace st) = [video_fetch] \/
     axios_calls (trace st) = [video_fetch; audio_fetch]) /\
    (In (EvWriterFinish vp) (trace st) <->
     axios_calls (trace st) = [video_fetch; audio_fetch]) /\
    (forall p, In (EvCreateWriteStream p) (trace st) ->
       (p = vp /\ exists stream,
          env_axios_get Demo.happy (fst video_fetch) (snd video_fetch)
            = inr stream) \/
       (p = ap /\ exists stream,
          env_axios_get Demo.happy (fst audio_fetch) (snd audio_fetch)
            = inr stream)) /\
    (forall video audio, axios_calls (trace st) = [video; audio] ->
       timeout (snd audio) < timeout (snd video) /\
       maxContentLength (snd audio) < maxContentLength (snd video)).
Proof.
  cbv zeta.
  assert (Hv : truthy (field Demo.request "videoUrl") = true)
    by (vm_compute; reflexivity).
  assert (Ha : truthy (field Demo.request "audioUrl") = true)
    by (vm_compute; reflexivity).
  split; [exact Hv|]. split; [exact Ha|].
  split; [vm_compute; reflexivity|].
  exact (download_limits Demo.happy Demo.request ∅ Hv Ha).
Defined.

(** C7 on the run in which ffmpeg ends without an output file. *)
Lemma missing_output_is_failure_witness :
  let run := serve Demo.silent Demo.request ∅ in
  check_after_end (trace run.2) = Some false /\
  run.1 = Ret tt /\
  sent run.2 =
    Some (mkResponse 500
            (VObj [ ("success", VBool false);
                    ("error", VStr "Output file was not created");
                    ("details",
                      VStr (env_stack Demo.silent "Output file was not created")) ])) /\
  forall p content, ~ In (EvReadFile p content) (trace run.2).
Proof.
  cbv zeta.
  assert (H : check_after_end (trace (serve Demo.silent Demo.request ∅).2)
              = Some false) by (vm_compute; reflexivity).
  split; [exact H|].
  exact (missing_output_is_failure Demo.silent Demo.request ∅ H).
Defined.

(** C8 on the happy run. *)
Lemma base64_round_trip_witness :
  let st := (serve Demo.happy Demo.request ∅).2 in
  exists r text bytes vp ap op video audio written,
    sent st = Some r /\ status r = 200 /\
    member "base64" (json r) = Some (VStr text) /\
    videoPath st = Some vp /\ audioPath st = Some ap /\
    outputPath st = Some op /\
    env_axios_get Demo.happy (field Demo.request "videoUrl") video_config
      = inr video /\
    env_axios_get Demo.happy (field Demo.request "audioUrl") audio_config
      = inr audio /\
    let downloaded := <[ap := audio]> (<[vp := video]> ∅) in
    result (env_ffmpeg Demo.happy (merge_command vp ap op) downloaded)
      = FfmpegEnd written /\
    leave op written downloaded !! op = Some bytes /\
    (forall merged, written = Some merged -> bytes = merged) /\
    In (EvReadFile op (Some bytes)) (trace st) /\
    Base64.decode text = Some bytes.
Proof.
  cbv zeta.
  assert (H : exists r, sent (serve Demo.happy Demo.request ∅).2 = Some r
                        /\ status r = 200).
  { eexists. split; vm_compute; reflexivity. }
  destruct H as (r & Hsent & Hstatus).
  destruct (base64_round_trip Demo.happy Demo.request ∅ r Hsent Hstatus)
    as (text & bytes & vp & ap & op & video & audio & written & H).
  exists r, text, bytes, vp, ap, op, video, audio, written.
  split; [exact Hsent|]. split; [exact Hstatus|]. exact H.
Defined.

(** C9 on the happy run. *)
Lemma temp_paths_distinct_witness :
  let st := (serve Demo.happy Demo.request ∅).2 in
  truthy (field Demo.request "videoUrl") = true /\
  truthy (field Demo.request "audioUrl") = true /\
  exists vp ap op,
    videoPath st = Some vp /\ audioPath st = Some ap /\
    outputPath st = Some op /\
    vp <> ap /\ vp <> op /\ ap <> op.
Proof.
  cbv zeta.
  assert (Hv : truthy (field Demo.request "videoUrl") = true)
    by (vm_compute; reflexivity).
  assert (Ha : truthy (field Demo.request "audioUrl") = true)
    by (vm_compute; reflexivity).
  split; [exact Hv|]. split; [exact Ha|].
  exact (temp_paths_distinct Demo.happy Demo.request ∅ Hv Ha).
Defined.

(** C10 on the happy run. *)
Lemma downloads_are_sequential_witness :
  let st := (serve Demo.happy Demo.request ∅).2 in
  videoPath st = Some video_file /\ audioPath st = Some audio_file /\
  precedes (EvWriterFinish video_file) is_audio_fetch (trace st) /\
  precedes (EvWriterFinish video_file) is_ffmpeg_run (trace st) /\
  precedes (EvWriterFinish audio_file) is_ffmpeg_run (trace st).
Proof.
  cbv zeta.
  assert (Hv : videoPath (serve Demo.happy Demo.request ∅).2 = Some video_file)
    by (vm_compute; reflexivity).
  assert (Ha : audioPath (serve Demo.happy Demo.request ∅).2 = Some audio_file)
    by (vm_compute; reflexivity).
  split; [exact Hv|]. split; [exact Ha|].
  exact (downloads_are_sequential Demo.happy Demo.request ∅ _ _ Hv Ha).
Defined.

(** The files named by the happy run, one by one. *)
Example happy_temp_files :
  let st := (serve Demo.happy Demo.request ∅).2 in
  videoPath st = Some video_file /\
  audioPath st = Some audio_file /\
  outputPath st = Some output_file.
Proof. vm_compute. repeat split. Qed.

(** Known encodings, with two, one and no padding character. *)
Example base64_samples :
  Base64.encode (Demo.bytes_of "M") = "TQ==" /\
  Base64.encode (Demo.bytes_of "Ma") = "TWE=" /\
  Base64.encode (Demo.bytes_of "Man") = "TWFu" /\
  Base64.decode "TWFuTQ==" = Some (Demo.bytes_of "ManM") /\
  Base64.decode "TWFuTQ=" = None.
Proof. vm_compute. repeat split. Qed.

Example join_samples :
  Path.join ["/tmp"; "video_1_ab.mp4"] = "/tmp/video_1_ab.mp4" /\
  Path.join ["/tmp"; "a/../b/./c/"] = "/tmp/b/c/" /\
  Path.join ["a"; "../../b"] = "../b" /\
  Path.join ["/"; ".."] = "/".
Proof. vm_compute. repeat split. Qed.
End Scenarios.

(** * More of the handler *)

(** *** What the cleanup touches *)

Module Frames.
Import Runs Exec.
Local Open Scope list_scope.

Section WithEnv.
Context (env : Env).

Lemma unlinks_app (l1 l2 : list Event) :
  unlinks (l1 ++ l2) = (unlinks l1 ++ unlinks l2)%list.
Proof. apply flat_map_app. Qed.

Lemma log_cleanup_error_run (e : Error) (d : gmap string (list byte))
    (evs : list Event) (st : State) :
  log_cleanup_error e (touch d evs st)
  = (Ret tt, touch d (evs ++ [EvError [VStr "Cleanup error:"; VErr e]])%list st).
Proof.
  unfold log_cleanup_error, console_error, modify.
  now rewrite emit_touch, touch_touch.
Qed.

Lemma sublist_first {A} (u1 l1 rest : list A) :
  u1 `sublist_of` l1 -> u1 `sublist_of` l1 ++ rest.
Proof. apply sublist_inserts_r. Qed.

Lemma sublist_first_two {A} (u1 u2 l1 l2 rest : list A) :
  u1 `sublist_of` l1 -> u2 `sublist_of` l2 ->
  u1 ++ u2 `sublist_of` l1 ++ l2 ++ rest.
Proof.
  intros H1 H2. apply sublist_app; [exact H1|].
  now apply sublist_inserts_r.
Qed.

Lemma sublist_all_three {A} (u1 u2 u3 l1 l2 l3 : list A) :
  u1 `sublist_of` l1 -> u2 `sublist_of` l2 -> u3 `sublist_of` l3 ->
  (u1 ++ u2) ++ u3 `sublist_of` l1 ++ l2 ++ l3.
Proof.
  intros H1 H2 H3. rewrite <- app_assoc.
  apply sublist_app; [exact H1|]. now apply sublist_app.
Qed.

Lemma unlinks_log (e : Error) (l : list Event) :
  unlinks (l ++ [EvError [VStr "Cleanup error:"; VErr e]]) = unlinks l.
Proof. rewrite unlinks_app. apply app_nil_r. Qed.

(** One guarded deletion changes the disk at its own path only and
    attempts at most that one deletion. *)
Lemma unlink_if_exists_frame (p : string) (st : State) :
  exists o d evs,
    unlink_if_exists env p st = (o, touch d evs st) /\
    forallb is_cleanup_event evs = true /\
    (forall q, q <> p -> d !! q = disk st !! q) /\
    unlinks evs `sublist_of` [p] /\
    o <> Pending.
Proof.
  unfold unlink_if_exists, existsSync, unlinkSync, mbind, M_bind, bind, when.
  cbn [disk emit].
  destruct (disk st !! p) as [bytes|] eqn:Hp.
  - rewrite bool_decide_true by eauto.
    cbn [disk emit]. rewrite Hp.
    destruct (env_unlink env p) as [e|] eqn:He.
    + exists (Throw e), (disk st), [EvExists p true; EvUnlink p].
      split; [unfold touch, emit; cbn; now rewrite <- app_assoc|].
      repeat split; auto; discriminate.
    + exists (Ret tt), (delete p (disk st)), [EvExists p true; EvUnlink p].
      split; [unfold touch, emit, set_disk; cbn; now rewrite <- app_assoc|].
      repeat split; auto; try discriminate.
      intros q Hq. now apply lookup_delete_ne.
  - rewrite bool_decide_false by (intros [? ?]; congruence).
    exists (Ret tt), (disk st), [EvExists p false].
    repeat split; auto; try discriminate.
    apply sublist_nil_l.
Qed.

Lemma unlink_if_set_frame (po : option string) (st : State) :
  exists o d evs,
    unlink_if_set env po st = (o, touch d evs st) /\
    forallb is_cleanup_event evs = true /\
    (forall q, po <> Some q -> d !! q = disk st !! q) /\
    unlinks evs `sublist_of` option_list po /\
    o <> Pending.
Proof.
  assert (Hnothing : exists o d evs,
             (Ret tt, st) = (o, touch d evs st) /\
             forallb is_cleanup_event evs = true /\
             (forall q, po <> Some q -> d !! q = disk st !! q) /\
             unlinks evs `sublist_of` option_list po /\
             o <> Pending).
  { exists (Ret tt), (disk st), [].
    split; [unfold touch; rewrite app_nil_r; now destruct st|].
    repeat split; auto; try discriminate. apply sublist_nil_l. }
  destruct po as [p|]; cbn [unlink_if_set]; [|exact Hnothing].
  destruct (JsString.nonempty p); [|exact Hnothing].
  destruct (unlink_if_exists_frame p st)
    as (o & d & evs & -> & Hev & Hd & Hu & Ho).
  exists o, d, evs. repeat split; auto.
  intros q Hq. apply Hd. congruence.
Qed.

(** The cleanup after a success: deletions of the three paths only,
    each at most once, in the order video, audio, output. *)
Lemma cleanup_frame (vp ap op : string) (st : State) :
  exists d evs,
    cleanup env vp ap op st = (Ret tt, touch d evs st) /\
    forallb is_cleanup_event evs = true /\
    (forall q, q <> vp -> q <> ap -> q <> op -> d !! q = disk st !! q) /\
    unlinks evs `sublist_of` [vp; ap; op].
Proof.
  unfold cleanup, try_catch, mbind, M_bind, bind.
  destruct (unlink_if_exists_frame vp st)
    as (o1 & d1 & evs1 & -> & Hev1 & Hd1 & Hu1 & Ho1).
  destruct o1 as [[]|e|]; [| |contradiction].
  2:{ eexists _, _. split; [apply log_cleanup_error_run|].
      split; [rewrite forallb_app, Hev1; reflexivity|].
      split; [auto|].
      rewrite unlinks_log.
      exact (sublist_first _ [vp] [ap; op] Hu1). }
  destruct (unlink_if_exists_frame ap (touch d1 evs1 st))
    as (o2 & d2 & evs2 & -> & Hev2 & Hd2 & Hu2 & Ho2).
  cbn [disk touch] in Hd2. rewrite touch_touch.
  destruct o2 as [[]|e|]; [| |contradiction].
  2:{ eexists _, _. split; [apply log_cleanup_error_run|].
      split; [rewrite !forallb_app, Hev1, Hev2; reflexivity|].
      split; [intros q ? ? ?; rewrite Hd2, Hd1; auto|].
      rewrite unlinks_log, unlinks_app.
      exact (sublist_first_two _ _ [vp] [ap] [op] Hu1 Hu2). }
  destruct (unlink_if_exists_frame op (touch d2 (evs1 ++ evs2) st))
    as (o3 & d3 & evs3 & -> & Hev3 & Hd3 & Hu3 & Ho3).
  cbn [disk touch] in Hd3. rewrite touch_touch.
  assert (Hall : unlinks ((evs1 ++ evs2) ++ evs3) `sublist_of` [vp; ap; op]).
  { rewrite !unlinks_app.
    exact (sublist_all_three _ _ _ [vp] [ap] [op] Hu1 Hu2 Hu3). }
  destruct o3 as [[]|e|]; [| |contradiction].
  2:{ eexists _, _. split; [apply log_cleanup_error_run|].
      split; [rewrite !forallb_app, Hev1, Hev2, Hev3; reflexivity|].
      split; [intros q ? ? ?; rewrite Hd3, Hd2, Hd1; auto|].
      now rewrite unlinks_log. }
  eexists _, _. split; [reflexivity|].
  split; [rewrite !forallb_app, Hev1, Hev2, Hev3; reflexivity|].
  split; [intros q ? ? ?; rewrite Hd3, Hd2, Hd1; auto|].
  exact Hall.
Qed.

(** The cleanup of the [catch] block, likewise, on the paths the
    variables hold. *)
Lemma cleanup_on_error_frame (st : State) :
  exists d evs,
    cleanup_on_error env st = (Ret tt, touch d evs st) /\
    forallb is_cleanup_event evs = true /\
    (forall q, videoPath st <> Some q -> audioPath st <> Some q ->
               outputPath st <> Some q -> d !! q = disk st !! q) /\
    unlinks evs `sublist_of`
      (option_list (videoPath st) ++ option_list (audioPath st)
         ++ option_list (outputPath st)).
Proof.
  unfold cleanup_on_error, try_catch, mbind, M_bind, bind, get.
  destruct (unlink_if_set_frame (videoPath st) st)
    as (o1 & d1 & evs1 & -> & Hev1 & Hd1 & Hu1 & Ho1).
  destruct o1 as [[]|e|]; [| |contradiction].
  2:{ eexists _, _. split; [apply log_cleanup_error_run|].
      split; [rewrite forallb_app, Hev1; reflexivity|].
      split; [auto|].
      rewrite unlinks_log.
      exact (sublist_first _ _ _ Hu1). }
  cbn [audioPath touch].
  destruct (unlink_if_set_frame (audioPath st) (touch d1 evs1 st))
    as (o2 & d2 & evs2 & -> & Hev2 & Hd2 & Hu2 & Ho2).
  cbn [disk touch] in Hd2. rewrite touch_touch.
  destruct o2 as [[]|e|]; [| |contradiction].
  2:{ eexists _, _. split; [apply log_cleanup_error_run|].
      split; [rewrite !forallb_app, Hev1, Hev2; reflexivity|].
      split; [intros q ? ? ?; rewrite Hd2, Hd1; auto|].
      rewrite unlinks_log, unlinks_app.
      exact (sublist_first_two _ _ _ _ _ Hu1 Hu2). }
  cbn [outputPath touch].
  destruct (unlink_if_set_frame (outputPath st) (touch d2 (evs1 ++ evs2) st))
    as (o3 & d3 & evs3 & -> & Hev3 & Hd3 & Hu3 & Ho3).
  cbn [disk touch] in Hd3. rewrite touch_touch.
  assert (Hall : unlinks ((evs1 ++ evs2) ++ evs3) `sublist_of`
            (option_list (videoPath st) ++ option_list (audioPath st)
               ++ option_list (outputPath st))).
  { rewrite !unlinks_app.
    exact (sublist_all_three _ _ _ _ _ _ Hu1 Hu2 Hu3). }
  destruct o3 as [[]|e|]; [| |contradiction].
  2:{ eexists _, _. split; [apply log_cleanup_error_run|].
      split; [rewrite !forallb_app, Hev1, Hev2, Hev3; reflexivity|].
      split; [intros q ? ? ?; rewrite Hd3, Hd2, Hd1; auto|].
      now rewrite unlinks_log. }
  eexists _, _. split; [reflexivity|].
  split; [rewrite !forallb_app, Hev1, Hev2, Hev3; reflexivity|].
  split; [intros q ? ? ?; rewrite Hd3, Hd2, Hd1; auto|].
  exact Hall.
Qed.
End WithEnv.
End Frames.

(** *** Running the whole handler, with the frame of the cleanup *)

Module Exec2.
Export Exec Frames.
Local Open Scope list_scope.

Ltac run_part_frame :=
  match goal with
  | |- context [cleanup ?env ?vp ?ap ?op ?st] =>
      let d := fresh "d" in
      let evs := fresh "evs" in
      let Hev := fresh "Hev" in
      let Hframe := fresh "Hframe" in
      let Hdel := fresh "Hdel" in
      destruct (cleanup_frame env vp ap op st)
        as (d & evs & -> & Hev & Hframe & Hdel)
  | |- context [cleanup_on_error ?env ?st] =>
      let d := fresh "d" in
      let evs := fresh "evs" in
      let Hev := fresh "Hev" in
      let Hframe := fresh "Hframe" in
      let Hdel := fresh "Hdel" in
      destruct (cleanup_on_error_frame env st)
        as (d & evs & -> & Hev & Hframe & Hdel)
  end.

Ltac steps_frame := cbn; repeat (first [run_part_frame | run_part | branch]; cbn).

Lemma sends_app (l1 l2 : list Event) :
  sends (l1 ++ l2) = sends l1 ++ sends l2.
Proof. apply flat_map_app. Qed.

Lemma sends_cleanup (evs : list Event) :
  forallb is_cleanup_event evs = true -> sends evs = [].
Proof.
  intros Hev. apply flat_map_none. intros e He.
  apply (cleanup_event_in _ _ Hev) in He. now destruct e.
Qed.

Lemma sends_progress (evs : list Event) :
  forallb is_progress_event evs = true -> sends evs = [].
Proof.
  intros Hev. apply flat_map_none. intros e He.
  apply (progress_event_in _ _ Hev) in He. now destruct e.
Qed.

Lemma unlinks_progress (evs : list Event) :
  forallb is_progress_event evs = true -> unlinks evs = [].
Proof.
  intros Hev. apply flat_map_none. intros e He.
  apply (progress_event_in _ _ Hev) in He. now destruct e.
Qed.

(** The answers and the deletions of a trace made of known events and of
    cleanup and progress segments. *)
Ltac observe :=
  repeat first
    [ rewrite sends_app | rewrite unlinks_app
    | rewrite sends_cleanup by assumption
    | rewrite sends_progress by assumption
    | rewrite unlinks_progress by assumption
    | progress cbn [sends unlinks flat_map app] ].

End Exec2.

(** * Further properties of the merge handler *)

Module Extras.
Import Exec2.
Local Open Scope list_scope.

(** X1. A request is turned away with HTTP 400 exactly when [videoUrl] or
    [audioUrl] is falsy: absent, [null], [false], [0] or the empty string.
    Nothing else is checked: any other value, string or not, passes and
    is never answered with 400. *)
Theorem rejected_iff_falsy (env : Env) (req : Request)
    (files : gmap string (list byte)) :
  let st := (serve env req files).2 in
  let rejection :=
    mkResponse 400
      (VObj [ ("error", VStr "Missing required fields");
              ("required", VArr [VStr "videoUrl"; VStr "audioUrl"]) ]) in
  (truthy (field req "videoUrl") = false \/
   truthy (field req "audioUrl") = false ->
   sent st = Some rejection /\ disk st = files /\
   axios_calls (trace st) = [] /\ ffmpeg_runs (trace st) = []) /\
  (truthy (field req "videoUrl") = true ->
   truthy (field req "audioUrl") = true ->
   forall r, sent st = Some r -> status r = 200 \/ status r = 500).
Proof.
  cbv zeta. split.
  - intros Hfalsy.
    assert (H : negb (truthy (field req "videoUrl"))
                || negb (truthy (field req "audioUrl")) = true).
    { destruct Hfalsy as [-> | ->]; [reflexivity | apply orb_true_r]. }
    unfold_handler. rewrite H. cbn. auto.
  - intros Hv Ha.
    destruct (serve env req files) as [o st] eqn:Hrun. cbn [snd]. revert Hrun.
    unfold_handler. rewrite Hv, Ha. cbn [negb orb].
    with_paths env.
    steps; intros [= <- <-] r; cbn; intros [= <-]; cbn; auto.
Qed.


(** X3. Whatever happens to a request, every file on the disk other than
    its three temp files is left exactly as it was. *)
Theorem other_files_untouched (env : Env) (req : Request)
    (files : gmap string (list byte)) :
  let st := (serve env req files).2 in
  forall p,
    videoPath st <> Some p -> audioPath st <> Some p ->
    outputPath st <> Some p ->
    disk st !! p = files !! p.
Proof.
  cbv zeta.
  destruct (serve env req files) as [o st] eqn:Hrun. cbn [snd]. revert Hrun.
  unfold_handler.
  destruct (negb _ || negb _) eqn:Hvalid.
  - cbn. intros [= <- <-] p _ _ _. reflexivity.
  - with_paths env.
    steps_frame; intros [= <- <-] p; cbn; intros Hv Ha Ho;
      assert (Hpv : p <> vp) by congruence;
      assert (Hpa : p <> ap) by congruence;
      assert (Hpo : p <> op) by congruence;
      try (cbn in Hframe; rewrite Hframe by (auto; congruence));
      unfold leave;
      repeat match goal with
             | |- context [match ?w with Some _ => _ | None => _ end] =>
                 destruct w
             end;
      rewrite ?lookup_insert_ne by congruence; reflexivity.
Qed.

(** X4. A request is answered at most once, and the answer is the last
    thing the handler does: every log line, download, ffmpeg run and
    deletion of the request comes before it. *)
Theorem answer_is_last (env : Env) (req : Request)
    (files : gmap string (list byte)) :
  let st := (serve env req files).2 in
  sends (trace st) = option_list (sent st) /\
  (is_Some (sent st) -> last (trace st) = EvSend <$> sent st).
Proof.
  cbv zeta.
  destruct (serve env req files) as [o st] eqn:Hrun. cbn [snd]. revert Hrun.
  unfold_handler.
  destruct (negb _ || negb _) eqn:Hvalid.
  - cbn. intros [= <- <-]. split; reflexivity.
  - with_paths env.
    steps; intros [= <- <-]; split.
    all: try (cbn; observe; reflexivity).
    all: try (cbn [sent set_sent set_disk emit touch]; intros [? H];
              discriminate H).
    all: intros _; cbn [sent set_sent trace emit fmap option_fmap option_map];
      apply last_snoc.
Qed.

(** X5. Nothing is retried: ffmpeg runs at most once, and the deletions a
    request attempts are, in this order and each at most once, those of
    its video, audio and output file. *)
Theorem nothing_is_retried (env : Env) (req : Request)
    (files : gmap string (list byte)) :
  let st := (serve env req files).2 in
  (length (ffmpeg_runs (trace st)) <= 1)%nat /\
  unlinks (trace st) `sublist_of`
    (option_list (videoPath st) ++ option_list (audioPath st)
       ++ option_list (outputPath st)).
Proof.
  cbv zeta.
  destruct (serve env req files) as [o st] eqn:Hrun. cbn [snd]. revert Hrun.
  unfold_handler.
  destruct (negb _ || negb _) eqn:Hvalid.
  - cbn. intros [= <- <-]. split; [cbn; lia | apply sublist_nil_l].
  - with_paths env.
    steps_frame; intros [= <- <-]; split.
    all: try (cbn; calls; cbn; lia).
    all: cbn; observe; rewrite ?app_nil_r;
      first [ exact Hdel | apply sublist_nil_l ].
Qed.

(** X6. For a request whose JSON body was parsed, no error of a download,
    a write, ffmpeg, a read or a deletion escapes the handler. Its promise
    resolves once the answer has been sent, or, when a write stream or
    ffmpeg never settles, it stays pending: then no answer is sent and no
    temp file is deleted. *)
Theorem handler_never_rejects (env : Env) (req : Request)
    (files : gmap string (list byte)) :
  let run := serve env req files in
  (run.1 = Ret tt /\ is_Some (sent run.2)) \/
  (run.1 = Pending /\ sent run.2 = None /\ unlinks (trace run.2) = []).
Proof.
  cbv zeta.
  destruct (serve env req files) as [o st] eqn:Hrun. cbn [fst snd]. revert Hrun.
  unfold_handler.
  destruct (negb _ || negb _) eqn:Hvalid.
  - cbn. intros [= <- <-]. left. cbn. eauto.
  - with_paths env.
    steps; intros [= <- <-];
      first [ left; split; [reflexivity | cbn; eauto]
            | right; split; [reflexivity|]; split; [reflexivity|];
              cbn; observe; reflexivity ].
Qed.

(** X7. The stats of a success answer are measured, not estimated: the
    two input sizes are the byte counts of the streams that were fetched,
    the output size is the byte count of the file that was read, and the
    processing time is the span, in seconds with two decimals, between
    the first clock reading of the request and the one taken after the
    encoding, before the temp files are deleted. *)
Theorem stats_are_measured (env : Env) (req : Request)
    (files : gmap string (list byte)) :
  let st := (serve env req files).2 in
  forall r, sent st = Some r -> status r = 200 ->
    exists video audio merged op,
      env_axios_get env (field req "videoUrl") video_config = inr video /\
      env_axios_get env (field req "audioUrl") audio_config = inr audio /\
      In (EvReadFile op (Some merged)) (trace st) /\
      ticks st = 3%nat /\
      member "stats" (json r) =
        Some (VObj
          [ ("inputVideoSize", VNum (inject_Z (Z.of_nat (length video))));
            ("inputAudioSize", VNum (inject_Z (Z.of_nat (length audio))));
            ("outputSize", VNum (inject_Z (Z.of_nat (length merged))));
            ("processingTime",
              VNum (env_parseFloat env
                      (env_toFixed env 2
                         (env_div env (inject_Z (env_now env 2 - env_now env 0))
                            (inject_Z 1000)))));
            ("outputSizeMB",
              VStr (env_toFixed env 2
                      (env_div env
                         (env_div env (inject_Z (Z.of_nat (length merged)))
                            (inject_Z 1024))
                         (inject_Z 1024)))) ]).
Proof.
  cbv zeta.
  destruct (serve env req files) as [o st] eqn:Hrun. cbn [snd]. revert Hrun.
  unfold_handler.
  destruct (negb _ || negb _) eqn:Hvalid.
  - cbn. intros [= <- <-] r. cbn. intros [= <-] Hstatus. discriminate Hstatus.
  - with_paths env.
    steps; intros [= <- <-] r; cbn; intros [= <-] Hstatus;
      try discriminate Hstatus.
    all: eexists _, _, _, op.
    all: split; [reflexivity|]; split; [reflexivity|].
    all: cbn; split; [find_in|]; split; reflexivity.
Qed.

Lemma length_encode (bs : list byte) :
  String.length (Base64.encode bs) = (4 * ((length bs + 2) / 3))%nat.
Proof.
  induction bs as [|a|a b|a b c l IH] using Base64Round.list_ind3;
    try reflexivity.
  replace (String.length (Base64.encode (a :: b :: c :: l)))
    with (4 + String.length (Base64.encode l))%nat by reflexivity.
  rewrite IH. cbn [length].
  replace (S (S (S (length l))) + 2)%nat with (length l + 2 + 1 * 3)%nat by lia.
  rewrite Nat.div_add by lia. lia.
Qed.

(** X8. The [base64] text of a success answer is four characters for
    every three bytes of the merged file, the last group filled up:
    [4 * ceil(outputSize / 3)] characters. *)
Theorem base64_length (env : Env) (req : Request)
    (files : gmap string (list byte)) :
  let st := (serve env req files).2 in
  forall r, sent st = Some r -> status r = 200 ->
    exists text merged op,
      member "base64" (json r) = Some (VStr text) /\
      In (EvReadFile op (Some merged)) (trace st) /\
      String.length text = (4 * ((length merged + 2) / 3))%nat.
Proof.
  cbv zeta.
  destruct (serve env req files) as [o st] eqn:Hrun. cbn [snd]. revert Hrun.
  unfold_handler.
  destruct (negb _ || negb _) eqn:Hvalid.
  - cbn. intros [= <- <-] r. cbn. intros [= <-] Hstatus. discriminate Hstatus.
  - with_paths env.
    steps; intros [= <- <-] r; cbn; intros [= <-] Hstatus;
      try discriminate Hstatus.
    all: eexists _, _, op; cbn.
    all: split; [reflexivity|]; split; [find_in | apply length_encode].
Qed.

Lemma substring_of_chars (n : nat) (l : list ascii) :
  JsString.substring_from n (JsString.of_chars l) = JsString.of_chars (skipn n l).
Proof.
  revert l. induction n as [|n IH]; intros [|c l]; try reflexivity.
  exact (IH l).
Qed.

(** The random part of the names: the digits after the fifth. *)
Lemma random_id (env : Env) :
  JsString.substring_from 7 (random_toString36 env)
  = JsString.of_chars (map digit36 (skipn 5 (env_random env))).
Proof.
  unfold random_toString36. destruct (env_random env) as [|d ds]; [reflexivity|].
  change (JsString.substring_from 7 ("0." +:+ JsString.of_chars (map digit36 (d :: ds))))
    with (JsString.substring_from 5 (JsString.of_chars (map digit36 (d :: ds)))).
  now rewrite substring_of_chars, skipn_map.
Qed.

Lemma temp_files_form (env : Env) (ts : Z) :
  let rid := JsString.substring_from 7 (random_toString36 env) in
  let suffix :=
    pretty ts +:+ "_"
      +:+ JsString.of_chars (map digit36 (skipn 5 (env_random env))) in
  temp_file "/tmp" "video_" ts rid ".mp4" = "/tmp/video_" +:+ suffix +:+ ".mp4" /\
  temp_file "/tmp" "audio_" ts rid ".mp3" = "/tmp/audio_" +:+ suffix +:+ ".mp3" /\
  temp_file "/tmp" "output_" ts rid ".mp4" = "/tmp/output_" +:+ suffix +:+ ".mp4".
Proof.
  cbv zeta.
  assert (Hrid : Path.slash_free (JsString.substring_from 7 (random_toString36 env))).
  { apply PathFacts.slash_free_substring, TempFacts.slash_free_random. }
  rewrite !TempFacts.temp_file_plain
    by (try discriminate; try exact Hrid; TempFacts.literal_slash_free).
  rewrite random_id.
  assert (Hassoc : forall a b c : string, (a +:+ b) +:+ c = a +:+ b +:+ c).
  { intros a b c. induction a as [|x a IH]; [reflexivity|].
    change (String x (((a +:+ b)) +:+ c) = String x (a +:+ b +:+ c)).
    now rewrite IH. }
  rewrite !Hassoc. repeat split.
Qed.

(** X9. A request that passes validation puts its three temp files directly
    into [/tmp], under the names [video_S.mp4], [audio_S.mp3] and
    [output_S.mp4] with one shared [S]: the second clock reading of the
    request in decimal, an underscore, and the base-36 digits of the
    random number from the sixth on. The first five digits are dropped,
    so that a random number of at most five digits adds nothing. *)
Theorem temp_files_named (env : Env) (req : Request)
    (files : gmap string (list byte)) :
  truthy (field req "videoUrl") = true ->
  truthy (field req "audioUrl") = true ->
  let st := (serve env req files).2 in
  let suffix :=
    pretty (env_now env 1) +:+ "_"
      +:+ JsString.of_chars (map digit36 (skipn 5 (env_random env))) in
  videoPath st = Some ("/tmp/video_" +:+ suffix +:+ ".mp4") /\
  audioPath st = Some ("/tmp/audio_" +:+ suffix +:+ ".mp3") /\
  outputPath st = Some ("/tmp/output_" +:+ suffix +:+ ".mp4").
Proof.
  intros Hv Ha. cbv zeta.
  destruct (serve env req files) as [o st] eqn:Hrun. cbn [snd]. revert Hrun.
  unfold_handler. rewrite Hv, Ha. cbn [negb orb].
  with_paths_and env (fun ts (_ : string) => temp_files_form env ts).
  destruct Hpaths as (-> & -> & ->).
  steps; intros [= <- <-]; cbn; auto.
Qed.

(** X10. When a write stream reports an error while a download is written
    out, the request is answered with HTTP 500 carrying that error, and
    ffmpeg is never run; when it is the video's stream, the audio is not
    even fetched. *)
Theorem write_failure_is_terminal (env : Env) (req : Request)
    (files : gmap string (list byte)) (p : string) :
  let run := serve env req files in
  In (EvWriterError p) (trace run.2) ->
  run.1 = Ret tt /\
  (exists e stream written,
      env_pipe env p stream = PipeError e written /\
      sent run.2 = Some (mkResponse 500 (failure_body e))) /\
  ffmpeg_runs (trace run.2) = [] /\
  (videoPath run.2 = Some p ->
   axios_calls (trace run.2) = [ (field req "videoUrl", video_config) ]).
Proof.
  cbv zeta.
  destruct (serve env req files) as [o st] eqn:Hrun. cbn [fst snd]. revert Hrun.
  unfold_handler.
  destruct (negb _ || negb _) eqn:Hvalid.
  - cbn. intros [= <- <-] Herr. refute Herr.
  - with_paths_and env (fun ts (_ : string) => Claims.temp_files_distinct_of env ts).
    destruct Hpaths as (Hva & Hvo & Hao).
    steps; intros [= <- <-] Herr; try refute Herr;
      cbn in Herr; in_cases.
    all: split; [reflexivity|].
    all: split; [eexists _, _, _; split; [eassumption | reflexivity]|].
    all: cbn; split; [calls; reflexivity|].
    all: intros Heq;
      first [ now (calls; reflexivity) | injection Heq as Heq; congruence ].
Qed.

(** X11. When the merged file cannot be read back, the request is answered
    with HTTP 500 carrying the error of the read, although ffmpeg had
    ended well and its output was there. *)
Theorem read_failure_is_failure (env : Env) (req : Request)
    (files : gmap string (list byte)) (p : string) :
  let run := serve env req files in
  In (EvReadFile p None) (trace run.2) ->
  run.1 = Ret tt /\
  outputPath run.2 = Some p /\
  (exists e,
      env_readFile env p = Some e /\
      sent run.2 = Some (mkResponse 500 (failure_body e))) /\
  In EvFfmpegEnd (trace run.2) /\
  check_after_end (trace run.2) = Some true.
Proof.
  cbv zeta.
  destruct (serve env req files) as [o st] eqn:Hrun. cbn [fst snd]. revert Hrun.
  unfold_handler.
  destruct (negb _ || negb _) eqn:Hvalid.
  - cbn. intros [= <- <-] Herr. refute Herr.
  - with_paths env.
    steps; intros [= <- <-] Herr; try refute Herr;
      cbn in Herr; in_cases.
    all: split; [reflexivity|]; split; [reflexivity|].
    all: split; [eexists; split; [eassumption | reflexivity]|].
    all: cbn; split; [find_in|].
    all: rewrite <- ?app_assoc; cbn;
      repeat (first [ rewrite Claims.check_after_end_progress by assumption
                    | rewrite Claims.check_after_end_cleanup by assumption ];
              cbn);
      reflexivity.
Qed.

(** X12. ffmpeg is started on both downloads, whole and in place: at that
    moment the video path holds exactly the bytes fetched from [videoUrl]
    and the audio path exactly those fetched from [audioUrl] (writing the
    audio did not disturb the video), and what the run reports is
    ffmpeg's answer on that disk. *)
Theorem ffmpeg_sees_both_downloads (env : Env) (req : Request)
    (files : gmap string (list byte)) (cmd : FfmpegCommand) :
  let st := (serve env req files).2 in
  In (EvFfmpegRun cmd) (trace st) ->
  exists vp ap video audio,
    videoPath st = Some vp /\ audioPath st = Some ap /\
    inputs cmd = [vp; ap] /\
    env_axios_get env (field req "videoUrl") video_config = inr video /\
    env_axios_get env (field req "audioUrl") audio_config = inr audio /\
    let d := <[ap := audio]> (<[vp := video]> files) in
    d !! vp = Some video /\ d !! ap = Some audio /\
    (In EvFfmpegEnd (trace st) ->
     exists written, result (env_ffmpeg env cmd d) = FfmpegEnd written) /\
    (In EvFfmpegError (trace st) ->
     exists msg stderr written,
       result (env_ffmpeg env cmd d) = FfmpegError msg stderr written).
Proof.
  cbv zeta.
  destruct (serve env req files) as [o st] eqn:Hrun. cbn [snd]. revert Hrun.
  unfold_handler.
  destruct (negb _ || negb _) eqn:Hvalid.
  - cbn. intros [= <- <-] Hrun. refute Hrun.
  - with_paths_and env (fun ts (_ : string) => Claims.temp_files_distinct_of env ts).
    destruct Hpaths as (Hva & Hvo & Hao).
    steps; intros [= <- <-] Hrun; try refute Hrun;
      cbn in Hrun; in_cases.
    all: exists vp, ap; eexists _, _.
    all: split; [reflexivity|]; split; [reflexivity|]; split; [reflexivity|].
    all: split; [reflexivity|]; split; [reflexivity|].
    all: split; [rewrite lookup_insert_ne by congruence; apply lookup_insert_eq|].
    all: split; [apply lookup_insert_eq|].
    all: split; intros Hin;
      first [ refute Hin | clear Hin; eauto ].
Qed.
End Extras.

(** ** Concrete runs of the further properties *)

Module MoreScenarios.
Import Exec2 Extras Demo.
Local Open Scope list_scope.

(** An event of a computed trace. *)
Ltac find_event := vm_compute; repeat (first [left; reflexivity | right]).

(** X1 on a request with an empty [audioUrl], and on the happy run. *)
Lemma rejected_iff_falsy_witness :
  truthy (field Demo.request_with_empty_audio "audioUrl") = false /\
  (let st := (serve Demo.happy Demo.request_with_empty_audio Demo.busy_disk).2 in
   sent st =
     Some (mkResponse 400
             (VObj [ ("error", VStr "Missing required fields");
                     ("required", VArr [VStr "videoUrl"; VStr "audioUrl"]) ])) /\
   disk st = Demo.busy_disk /\
   axios_calls (trace st) = [] /\ ffmpeg_runs (trace st) = []) /\
  truthy (field Demo.request "videoUrl") = true /\
  truthy (field Demo.request "audioUrl") = true /\
  exists r, sent (serve Demo.happy Demo.request ∅).2 = Some r /\
            (status r = 200 \/ status r = 500).
Proof.
  assert (He : truthy (field Demo.request_with_empty_audio "audioUrl") = false)
    by (vm_compute; reflexivity).
  assert (Hv : truthy (field Demo.request "videoUrl") = true)
    by (vm_compute; reflexivity).
  assert (Ha : truthy (field Demo.request "audioUrl") = true)
    by (vm_compute; reflexivity).
  split; [exact He|].
  split.
  { exact (proj1 (rejected_iff_falsy Demo.happy Demo.request_with_empty_audio
                    Demo.busy_disk) (or_intror He)). }
  split; [exact Hv|]. split; [exact Ha|].
  destruct (sent (serve Demo.happy Demo.request ∅).2) as [r|] eqn:Hsent;
    [|vm_compute in Hsent; discriminate Hsent].
  exists r. split; [reflexivity|].
  exact (proj2 (rejected_iff_falsy Demo.happy Demo.request ∅) Hv Ha r Hsent).
Defined.


(** X3 on the happy run over a disk that holds another file. *)
Lemma other_files_untouched_witness :
  let st := (serve Demo.happy Demo.request Demo.busy_disk).2 in
  videoPath st <> Some Demo.other_file /\
  audioPath st <> Some Demo.other_file /\
  outputPath st <> Some Demo.other_file /\
  disk st !! Demo.other_file = Demo.busy_disk !! Demo.other_file.
Proof.
  cbv zeta.
  assert (Hv : videoPath (serve Demo.happy Demo.request Demo.busy_disk).2
               <> Some Demo.other_file) by (vm_compute; discriminate).
  assert (Ha : audioPath (serve Demo.happy Demo.request Demo.busy_disk).2
               <> Some Demo.other_file) by (vm_compute; discriminate).
  assert (Ho : outputPath (serve Demo.happy Demo.request Demo.busy_disk).2
               <> Some Demo.other_file) by (vm_compute; discriminate).
  split; [exact Hv|]. split; [exact Ha|]. split; [exact Ho|].
  exact (other_files_untouched Demo.happy Demo.request Demo.busy_disk
           Demo.other_file Hv Ha Ho).
Defined.

(** X4 on the happy run. *)
Lemma answer_is_last_witness :
  let st := (serve Demo.happy Demo.request ∅).2 in
  is_Some (sent st) /\
  sends (trace st) = option_list (sent st) /\
  last (trace st) = EvSend <$> sent st.
Proof.
  cbv zeta.
  assert (H : is_Some (sent (serve Demo.happy Demo.request ∅).2))
    by (vm_compute; eauto).
  destruct (answer_is_last Demo.happy Demo.request ∅) as [Hsends Hlast].
  split; [exact H|]. split; [exact Hsends|]. exact (Hlast H).
Defined.

(** The happy run is answered with a success. *)
Lemma happy_answer :
  exists r, sent (serve Demo.happy Demo.request ∅).2 = Some r /\ status r = 200.
Proof. eexists. split; vm_compute; reflexivity. Qed.

(** X7 on the happy run. *)
Lemma stats_are_measured_witness :
  let st := (serve Demo.happy Demo.request ∅).2 in
  exists r video audio merged op,
    sent st = Some r /\ status r = 200 /\
    env_axios_get Demo.happy (field Demo.request "videoUrl") video_config
      = inr video /\
    env_axios_get Demo.happy (field Demo.request "audioUrl") audio_config
      = inr audio /\
    In (EvReadFile op (Some merged)) (trace st) /\
    ticks st = 3%nat /\
    member "stats" (json r) =
      Some (VObj
        [ ("inputVideoSize", VNum (inject_Z (Z.of_nat (length video))));
          ("inputAudioSize", VNum (inject_Z (Z.of_nat (length audio))));
          ("outputSize", VNum (inject_Z (Z.of_nat (length merged))));
          ("processingTime",
            VNum (env_parseFloat Demo.happy
                    (env_toFixed Demo.happy 2
                       (env_div Demo.happy
                          (inject_Z (env_now Demo.happy 2 - env_now Demo.happy 0))
                          (inject_Z 1000)))));
          ("outputSizeMB",
            VStr (env_toFixed Demo.happy 2
                    (env_div Demo.happy
                       (env_div Demo.happy (inject_Z (Z.of_nat (length merged)))
                          (inject_Z 1024))
                       (inject_Z 1024)))) ]).
Proof.
  cbv zeta.
  destruct happy_answer as (r & Hsent & Hstatus).
  destruct (stats_are_measured Demo.happy Demo.request ∅ r Hsent Hstatus)
    as (video & audio & merged & op & H).
  exists r, video, audio, merged, op. tauto.
Defined.

(** X8 on the happy run. *)
Lemma base64_length_witness :
  let st := (serve Demo.happy Demo.request ∅).2 in
  exists r text merged op,
    sent st = Some r /\ status r = 200 /\
    member "base64" (json r) = Some (VStr text) /\
    In (EvReadFile op (Some merged)) (trace st) /\
    String.length text = (4 * ((length merged + 2) / 3))%nat.
Proof.
  cbv zeta.
  destruct happy_answer as (r & Hsent & Hstatus).
  destruct (base64_length Demo.happy Demo.request ∅ r Hsent Hstatus)
    as (text & merged & op & H).
  exists r, text, merged, op. tauto.
Defined.

(** X9 on the happy run. *)
Lemma temp_files_named_witness :
  truthy (field Demo.request "videoUrl") = true /\
  truthy (field Demo.request "audioUrl") = true /\
  let st := (serve Demo.happy Demo.request ∅).2 in
  let suffix :=
    pretty (env_now Demo.happy 1) +:+ "_"
      +:+ JsString.of_chars (map digit36 (skipn 5 (env_random Demo.happy))) in
  videoPath st = Some ("/tmp/video_" +:+ suffix +:+ ".mp4") /\
  audioPath st = Some ("/tmp/audio_" +:+ suffix +:+ ".mp3") /\
  outputPath st = Some ("/tmp/output_" +:+ suffix +:+ ".mp4").
Proof.
  assert (Hv : truthy (field Demo.request "videoUrl") = true)
    by (vm_compute; reflexivity).
  assert (Ha : truthy (field Demo.request "audioUrl") = true)
    by (vm_compute; reflexivity).
  split; [exact Hv|]. split; [exact Ha|].
  exact (temp_files_named Demo.happy Demo.request ∅ Hv Ha).
Defined.

(** X10 on the run whose disk is full while the video is written. *)
Lemma write_failure_is_terminal_witness :
  let run := serve Demo.disk_full Demo.request ∅ in
  In (EvWriterError Demo.video_file) (trace run.2) /\
  run.1 = Ret tt /\
  (exists e stream written,
      env_pipe Demo.disk_full Demo.video_file stream = PipeError e written /\
      sent run.2 = Some (mkResponse 500 (failure_body e))) /\
  ffmpeg_runs (trace run.2) = [] /\
  (videoPath run.2 = Some Demo.video_file ->
   axios_calls (trace run.2) = [ (field Demo.request "videoUrl", video_config) ]).
Proof.
  cbv zeta.
  assert (H : In (EvWriterError Demo.video_file)
                (trace (serve Demo.disk_full Demo.request ∅).2))
    by find_event.
  split; [exact H|].
  exact (write_failure_is_terminal Demo.disk_full Demo.request ∅
           Demo.video_file H).
Defined.

(** X11 on the run whose merged file cannot be read. *)
Lemma read_failure_is_failure_witness :
  let run := serve Demo.unreadable Demo.request ∅ in
  In (EvReadFile Demo.output_file None) (trace run.2) /\
  run.1 = Ret tt /\
  outputPath run.2 = Some Demo.output_file /\
  (exists e,
      env_readFile Demo.unreadable Demo.output_file = Some e /\
      sent run.2 = Some (mkResponse 500 (failure_body e))) /\
  In EvFfmpegEnd (trace run.2) /\
  check_after_end (trace run.2) = Some true.
Proof.
  cbv zeta.
  assert (H : In (EvReadFile Demo.output_file None)
                (trace (serve Demo.unreadable Demo.request ∅).2))
    by find_event.
  split; [exact H|].
  exact (read_failure_is_failure Demo.unreadable Demo.request ∅
           Demo.output_file H).
Defined.

(** X12 on the happy run. *)
Lemma ffmpeg_sees_both_downloads_witness :
  let st := (serve Demo.happy Demo.request ∅).2 in
  let cmd := merge_command Demo.video_file Demo.audio_file Demo.output_file in
  In (EvFfmpegRun cmd) (trace st) /\
  exists vp ap video audio,
    videoPath st = Some vp /\ audioPath st = Some ap /\
    inputs cmd = [vp; ap] /\
    env_axios_get Demo.happy (field Demo.request "videoUrl") video_config
      = inr video /\
    env_axios_get Demo.happy (field Demo.request "audioUrl") audio_config
      = inr audio /\
    let d := <[ap := audio]> (<[vp := video]> ∅) in
    d !! vp = Some video /\ d !! ap = Some audio /\
    (In EvFfmpegEnd (trace st) ->
     exists written, result (env_ffmpeg Demo.happy cmd d) = FfmpegEnd written) /\
    (In EvFfmpegError (trace st) ->
     exists msg stderr written,
       result (env_ffmpeg Demo.happy cmd d) = FfmpegError msg stderr written).
Proof.
  cbv zeta.
  assert (H : In (EvFfmpegRun
                    (merge_command Demo.video_file Demo.audio_file
                       Demo.output_file))
                (trace (serve Demo.happy Demo.request ∅).2))
    by find_event.
  split; [exact H|].
  exact (ffmpeg_sees_both_downloads Demo.happy Demo.request ∅ _ H).
Defined.

(** Further runs, computed. *)

(** An ffmpeg run that never settles leaves the request unanswered and
    its files in place. *)
Example hung_ffmpeg_never_answers :
  let run := serve Demo.hung Demo.request ∅ in
  run.1 = Pending /\ sent run.2 = None /\ unlinks (trace run.2) = [] /\
  is_Some (disk run.2 !! Demo.video_file) /\
  is_Some (disk run.2 !! Demo.audio_file).
Proof.
  cbv zeta. split; [vm_compute; reflexivity|].
  split; [vm_compute; reflexivity|]. split; [vm_compute; reflexivity|].
  split; vm_compute; eauto.
Qed.

(** The five bytes written before the disk ran full are deleted again. *)
Example partial_download_is_removed :
  let st := (serve Demo.disk_full Demo.request ∅).2 in
  unlinks (trace st) = [Demo.video_file] /\ disk st = ∅.
Proof. cbv zeta. split; vm_compute; reflexivity. Qed.
End MoreScenarios.
